(** * proctrack/cray_aries: process tracking through Cray's job module

    A shallow embedding of [src/plugins/proctrack/cray_aries/proctrack_cray_aries.c]
    and the properties of its entry points.

    The plugin talks to three outside parties: the Cray job library
    ([job_create], [job_attachpid], ...), libc ([open], [write], [close],
    [errno]) and pthreads.  None of them is part of the repository, so their
    behaviour is left open: every function below is parameterised by a
    [platform] record over an abstract kernel state, and every theorem holds
    for all platforms.  Each plugin function is a computation in a small
    monad that threads the process state, may fail to return (the retry loop
    around [close]), and yields the list of outside calls and log lines it
    made, in program order.

    The embedding follows one calling thread.  Locking and signalling appear
    as events of the run; what other threads do meanwhile is not modelled,
    except for the worker thread's part of the creation handshake, which is
    run inside the creator's wait.  A wait that no thread is left to signal
    does not return.

    The scheduler plugin wrapper ([rl_wrapper.c]) is embedded in module
    [RL], over its own small state.

    The functions take the [HAVE_NATIVE_CRAY] preprocessor symbol as their
    [native] argument.  Properties that speak of job-library calls are
    stated for [native = true]; [without_native_cray] records what is left
    of the entry points otherwise. *)

From Stdlib Require Import ZArith List String Bool Lia.
Import ListNotations.
Local Open Scope Z_scope.

(** ** C integer conversions *)

(** Conversion to [int] (32 bits, two's complement). *)
Definition to_int (z : Z) : Z := (z + 2 ^ 31) mod 2 ^ 32 - 2 ^ 31.

(** Conversion to [size_t] and to [uint64_t] (64 bits, unsigned). *)
Definition to_size_t (z : Z) : Z := z mod 2 ^ 64.
Definition to_uint64 (z : Z) : Z := z mod 2 ^ 64.

(** [sizeof(pid_t)]. *)
Definition sizeof_pid_t : Z := 4.

(** [(jid_t) -1], the failure value of the job library.  On a native build
    [jid_t] is the job module's unsigned 64-bit id; without it the file
    defines [jid_t] as [int], and the comparisons against the [uint64_t]
    container id convert [-1] to the same value. *)
Definition jid_fail : Z := to_uint64 (-1).

(** [errno] values and signal numbers used by the plugin (Linux). *)
Definition EINTR : Z := 4.
Definition EBADF : Z := 9.
Definition EINVAL : Z := 22.
Definition ENODATA : Z := 61.
Definition SIGKILL : Z := 9.
Definition SIGTERM : Z := 15.

(** ** Data *)

(** Return codes of the plugin interface. *)
Inductive rc : Type := SLURM_SUCCESS | SLURM_ERROR.

Module StepId.
(** [slurm_step_id_t], the two fields the plugin reads. *)
Record t : Type := mk { job_id : Z; step_id : Z }.
End StepId.

(** [stepd_step_rec_t], the fields the plugin touches. *)
Record stepd_step_rec_t : Type := mk_step {
  cont_id : Z;
  uid : Z;
  het_job_id : Z;
  step_id : StepId.t
}.

Definition with_cont_id (c : Z) (st : stepd_step_rec_t) : stepd_step_rec_t :=
  mk_step c (uid st) (het_job_id st) (step_id st).

Inductive mutex : Type := notify_mutex | thread_mutex.

Inductive level : Type := Error | Info | Debug.

(** Arguments of a log line; [AFname pid] is the string
    ["/proc/<pid>/task_is_app"] built by [snprintf]. *)
Inductive arg : Type := AInt (z : Z) | AStr (s : string) | AFname (pid : Z).

(** What a run of a plugin function does to the outside world, in order. *)
Inductive event : Type :=
| Job_create (u : Z)
| Job_attachpid (pid jid : Z)
| Job_detachpid (pid : Z)
| Job_getjid (pid : Z)
| Job_setapid (pid apid : Z)
| Job_killjid (jid sig : Z)
| Job_waitjid (jid : Z)
| Job_getpidcnt (jid : Z)
| Job_getpidlist (jid bufsize : Z)
| Xmalloc (size : Z)
| Xfree
| Open_task_is_app (pid : Z)
| Write_one (fd : Z)
| Close (fd : Z)
| Mutex_lock (m : mutex)
| Mutex_unlock (m : mutex)
| Mutex_destroy (m : mutex)
| Cond_signal
| Cond_wait
| Cond_destroy
| Thread_create
| Pthread_join (tid : Z)
| Log (l : level) (fmt : string) (args : list arg)
| In_worker (e : event).

(** The outside world.  [K] is the kernel (and libc) state; every primitive
    returns its C return value and the next state, and [errno] is read off
    the state.  [open_task_is_app pid] stands for
    [open("/proc/<pid>/task_is_app", O_WRONLY)], [write_one fd] for
    [write(fd, "1", 1)], and [job_getpidlist] also gives the pids it stored
    in the buffer.  [errno] is the calling thread's: [set_errno e k] is [k]
    seen by a thread whose [errno] is [e], which is how the creating thread
    finds the kernel after its worker has made calls of its own. *)
Record platform (K : Type) : Type := mk_platform {
  errno : K -> Z;
  job_create : Z -> K -> Z * K;
  job_attachpid : Z -> Z -> K -> Z * K;
  job_detachpid : Z -> K -> Z * K;
  job_getjid : Z -> K -> Z * K;
  job_setapid : Z -> Z -> K -> Z * K;
  job_killjid : Z -> Z -> K -> Z * K;
  job_waitjid : Z -> K -> Z * K;
  job_getpidcnt : Z -> K -> Z * K;
  job_getpidlist : Z -> Z -> K -> (Z * list Z) * K;
  open_task_is_app : Z -> K -> Z * K;
  write_one : Z -> K -> Z * K;
  close : Z -> K -> Z * K;
  pthread_create : K -> Z * K;
  set_errno : Z -> K -> K
}.

Arguments errno {K}.
Arguments job_create {K}.
Arguments job_attachpid {K}.
Arguments job_detachpid {K}.
Arguments job_getjid {K}.
Arguments job_setapid {K}.
Arguments job_killjid {K}.
Arguments job_waitjid {K}.
Arguments job_getpidcnt {K}.
Arguments job_getpidlist {K}.
Arguments open_task_is_app {K}.
Arguments write_one {K}.
Arguments close {K}.
Arguments pthread_create {K}.
Arguments set_errno {K}.

(** The state of the slurmstepd process as far as the plugin is concerned:
    the kernel, the step record the [step] argument points to, the file's
    static [threadid], the global [proctrack_forked], and whether
    [slurm_conf.debug_flags & DEBUG_FLAG_TIME_CRAY] is set. *)
Record stepd (K : Type) : Type := mk_stepd {
  kern : K;
  step : stepd_step_rec_t;
  threadid : Z;
  proctrack_forked : bool;
  time_cray : bool
}.

Arguments mk_stepd {K}.
Arguments kern {K}.
Arguments step {K}.
Arguments threadid {K}.
Arguments proctrack_forked {K}.
Arguments time_cray {K}.

Definition with_kern {K} (k : K) (s : stepd K) : stepd K :=
  mk_stepd k (step s) (threadid s) (proctrack_forked s) (time_cray s).

Definition with_step {K} (st : stepd_step_rec_t) (s : stepd K) : stepd K :=
  mk_stepd (kern s) st (threadid s) (proctrack_forked s) (time_cray s).

Definition with_threadid {K} (t : Z) (s : stepd K) : stepd K :=
  mk_stepd (kern s) (step s) t (proctrack_forked s) (time_cray s).

(** ** The monad *)

(** A computation takes the process state and either does not return
    ([None]: out of fuel) or returns a value, the next state and the events
    of the run. *)
Definition M (K A : Type) : Type := stepd K -> option (A * stepd K * list event).

Definition ret {K A} (a : A) : M K A := fun s => Some (a, s, []).

Definition bind {K A B} (m : M K A) (f : A -> M K B) : M K B :=
  fun s =>
    match m s with
    | None => None
    | Some (a, s1, e1) =>
        match f a s1 with
        | None => None
        | Some (b, s2, e2) => Some (b, s2, e1 ++ e2)
        end
    end.

Definition diverge {K A} : M K A := fun _ => None.

Declare Scope m_scope.
Delimit Scope m_scope with m.
Notation "x <- m ;; k" := (bind m (fun x => k))
  (at level 100, m at next level, right associativity) : m_scope.
Notation "m ;; k" := (bind m (fun _ => k))
  (at level 100, right associativity) : m_scope.
Local Open Scope m_scope.

Definition emit {K} (e : event) : M K unit := fun s => Some (tt, s, [e]).

Definition log {K} (l : level) (fmt : string) (args : list arg) : M K unit :=
  emit (Log l fmt args).

Definition get {K A} (f : stepd K -> A) : M K A := fun s => Some (f s, s, []).

Definition set_cont_id {K} (c : Z) : M K unit :=
  fun s => Some (tt, with_step (with_cont_id c (step s)) s, []).

Definition set_threadid {K} (t : Z) : M K unit :=
  fun s => Some (tt, with_threadid t s, []).

(** A call of an outside primitive: one event, the kernel moves on. *)
Definition sys {K A} (e : event) (f : K -> A * K) : M K A :=
  fun s => let (a, k) := f (kern s) in Some (a, with_kern k s, [e]).

(** A [slurm_cond_wait] that no thread is left to signal: the call is made
    and does not return. *)
Definition cond_wait_unsignalled {K} : M K unit :=
  emit Cond_wait ;; diverge.

(** The events of a computation that runs in the worker thread. *)
Definition in_worker {K A} (m : M K A) : M K A :=
  fun s =>
    match m s with
    | None => None
    | Some (a, s', evs) => Some (a, s', map In_worker evs)
    end.

(** [if (slurm_conf.debug_flags & DEBUG_FLAG_TIME_CRAY) INFO_LINE(...)].
    The timers themselves are not modelled. *)
Definition time_report {K} : M K unit :=
  t <- get time_cray ;;
  if t then log Info "call took: %s" [] else ret tt.

(** ** The plugin *)

Section Plugin.

Context {K : Type} (P : platform K).

(** [NO_VAL] and [SLURM_ID_HASH] come from [slurm/slurm.h], which is not
    part of the repository. *)
Variable NO_VAL : Z.
Variable SLURM_ID_HASH : Z -> Z -> Z.

Definition plugin_name : string := "Process tracking via Cray/Aries job module".

(** [static void *libjob_handle = NULL]; nothing assigns it. *)
Definition libjob_handle : Z := 0.

(** The worker thread, from its start to the point where it blocks in its
    second [slurm_cond_wait] or returns.  It runs while the creating
    thread sits in [slurm_cond_wait]; its events are marked by
    [In_worker] in the creator's run. *)
Definition _create_container_thread (native : bool) : M K unit :=
  (if native then
     u <- get (fun s => uid (step s)) ;;
     r <- sys (Job_create u) (job_create P u) ;;
     set_cont_id (to_uint64 r)
   else ret tt) ;;
  emit (Mutex_lock notify_mutex) ;;
  emit Cond_signal ;;
  c <- get (fun s => cont_id (step s)) ;;
  if c =? jid_fail then
    log Error "Failed to create job container: %m" [] ;;
    emit (Mutex_unlock notify_mutex)
  else
    emit Cond_wait.

(** The calling thread's side of retirement.  [pthread_join] is taken to
    return: the worker, woken by the signal (or gone already when the
    creation failed), unlocks the mutex and ends. *)
Definition _end_container_thread : M K unit :=
  t <- get threadid ;;
  if negb (t =? 0) then
    emit (Mutex_lock thread_mutex) ;;
    emit (Mutex_lock notify_mutex) ;;
    emit Cond_signal ;;
    emit (Mutex_unlock notify_mutex) ;;
    emit (Pthread_join t) ;;
    set_threadid 0 ;;
    emit (Mutex_unlock thread_mutex)
  else ret tt.

Definition init : M K rc :=
  log Debug "%s loaded" [AStr plugin_name] ;;
  ret SLURM_SUCCESS.

Definition fini : M K rc :=
  _end_container_thread ;;
  emit (Mutex_destroy notify_mutex) ;;
  emit Cond_destroy ;;
  emit (Mutex_destroy thread_mutex) ;;
  ret SLURM_SUCCESS.

(** [slurm_thread_create(&threadid, _create_container_thread, step)]
    followed by the creator's [slurm_cond_wait], during which the worker
    runs up to its own wait.  The worker's calls leave their [errno] to the
    worker; the creator's is what it was when it went to wait. *)
Definition spawn_and_wait (native : bool) : M K unit :=
  tid <- sys Thread_create (pthread_create P) ;;
  set_threadid tid ;;
  emit Cond_wait ;;
  e <- get (fun s => errno P (kern s)) ;;
  in_worker (_create_container_thread native) ;;
  (fun s => Some (tt, with_kern (set_errno P e (kern s)) s, [])).

Definition proctrack_p_create (native : bool) : M K rc :=
  (if libjob_handle =? 0 then init else ret SLURM_SUCCESS) ;;
  c <- get (fun s => cont_id (step s)) ;;
  (if c =? 0 then
     forked <- get proctrack_forked ;;
     if forked then
       (* goto endit *)
       if native then
         u <- get (fun s => uid (step s)) ;;
         r <- sys (Job_create u) (job_create P u) ;;
         set_cont_id (to_uint64 r)
       else ret tt
     else
       emit (Mutex_lock thread_mutex) ;;
       t <- get threadid ;;
       (if negb (t =? 0) then
          (* The worker behind the recorded handle gave its one signal to
             its own creator, before [thread_mutex] was released; the other
             signal of the file, in [_end_container_thread], is given under
             [thread_mutex], which this caller holds. *)
          log Debug "Had a thread already 0x%08lx" [AInt t] ;;
          emit (Mutex_lock notify_mutex) ;;
          cond_wait_unsignalled ;;
          emit (Mutex_unlock notify_mutex) ;;
          log Debug "Last thread done 0x%08lx" [AInt t]
        else ret tt) ;;
       emit (Mutex_lock notify_mutex) ;;
       spawn_and_wait native ;;
       emit (Mutex_unlock notify_mutex) ;;
       emit (Mutex_unlock thread_mutex) ;;
       c' <- get (fun s => cont_id (step s)) ;;
       t' <- get threadid ;;
       if negb (c' =? jid_fail) then
         log Debug "proctrack_p_create: created jid 0x%08lx thread 0x%08lx"
           [AInt c'; AInt t']
       else ret tt
   else
     log Error "proctrack_p_create: already have a cont_id" []) ;;
  (* endit: *)
  time_report ;;
  ret SLURM_SUCCESS.

Definition proctrack_p_has_pid (native : bool) (cont pid : Z) : M K bool :=
  if native then
    jid <- sys (Job_getjid pid) (job_getjid P pid) ;;
    if jid =? jid_fail then ret false
    else if negb (to_uint64 jid =? cont) then ret false
    else ret true
  else ret true.

(** What the attach loop hands to the rest of [proctrack_p_add]: either
    the function has returned, or control falls out of the [if]. *)
Inductive attach_outcome : Type :=
| Returned (r : rc)
| Attached.

(** The [try_again:] loop of [proctrack_p_add] (native build).  Each
    [goto try_again] costs one unit of [fuel]. *)
Fixpoint try_again (fuel : nat) (pid count : Z) : M K attach_outcome :=
  match fuel with
  | O => diverge
  | S fuel' =>
      forked <- get proctrack_forked ;;
      if forked then ret Attached
      else
        c <- get (fun s => cont_id (step s)) ;;
        r <- sys (Job_attachpid pid c) (job_attachpid P pid c) ;;
        if r =? jid_fail then
          e <- get (fun s => errno P (kern s)) ;;
          if (e =? EINVAL) && (count <? 1) then
            h <- proctrack_p_has_pid true c pid ;;
            if h then
              log Debug
                "%s: Trying to add pid (%d) again to the same container, ignoring."
                [AStr "proctrack_p_add"; AInt pid] ;;
              ret (Returned SLURM_SUCCESS)
            else
              jid <- sys (Job_detachpid pid) (job_detachpid P pid) ;;
              if negb (jid =? jid_fail) then
                log Error
                  "%s: Pid %d was attached to container %lu incorrectly.  Moving to correct (%lu)."
                  [AStr "proctrack_p_add"; AInt pid; AInt jid; AInt c] ;;
                try_again fuel' pid (count + 1)
              else
                log Error "%s: Couldn't detach pid %d from container: %m"
                  [AStr "proctrack_p_add"; AInt pid] ;;
                ret (Returned SLURM_ERROR)
          else
            log Error "Failed to attach pid %d to job container: %m"
              [AInt pid] ;;
            ret (Returned SLURM_ERROR)
        else ret Attached
  end.

(** [TEMP_FAILURE_RETRY(close(fd))]: glibc's loop that repeats the call
    while it fails with [EINTR]. *)
Fixpoint temp_failure_retry_close (fuel : nat) (fd : Z) : M K Z :=
  match fuel with
  | O => diverge
  | S fuel' =>
      r <- sys (Close fd) (close P fd) ;;
      e <- get (fun s => errno P (kern s)) ;;
      if (r =? -1) && (e =? EINTR) then temp_failure_retry_close fuel' fd
      else ret r
  end.

(** [proctrack_p_add] from [// Set apid for this pid] on. *)
Definition stamp_application (fuel : nat) (pid : Z) : M K rc :=
  het <- get (fun s => het_job_id (step s)) ;;
  sid <- get (fun s => step_id (step s)) ;;
  let jobid :=
    if negb (het =? 0) && negb (het =? NO_VAL) then het
    else StepId.job_id sid in
  let apid := SLURM_ID_HASH jobid (StepId.step_id sid) in
  r <- sys (Job_setapid pid apid) (job_setapid P pid apid) ;;
  if r =? -1 then
    log Error "Failed to set pid %d apid: %m" [AInt pid] ;;
    ret SLURM_ERROR
  else
    fd <- sys (Open_task_is_app pid) (open_task_is_app P pid) ;;
    if fd =? -1 then
      log Error "Failed to open %s: %m" [AFname pid] ;;
      ret SLURM_ERROR
    else
      w <- sys (Write_one fd) (write_one P fd) ;;
      if w <? 1 then
        log Error "Failed to write to %s: %m" [AFname pid] ;;
        temp_failure_retry_close fuel fd ;;
        ret SLURM_ERROR
      else
        temp_failure_retry_close fuel fd ;;
        time_report ;;
        ret SLURM_SUCCESS.

Definition proctrack_p_add (fuel : nat) (native : bool) (pid : Z) : M K rc :=
  if native then
    o <- try_again fuel pid 0 ;;
    match o with
    | Returned r => ret r
    | Attached =>
        _end_container_thread ;;
        stamp_application fuel pid
    end
  else ret SLURM_SUCCESS.

Definition proctrack_p_signal (native : bool) (id sig : Z) : M K rc :=
  if native then
    t <- get threadid ;;
    if t =? 0 then
      r <- sys (Job_killjid id sig) (job_killjid P id sig) ;;
      e <- get (fun s => errno P (kern s)) ;;
      if (r <? 0) && negb (e =? ENODATA) && negb (e =? EBADF) then
        ret SLURM_ERROR
      else
        time_report ;; ret SLURM_SUCCESS
    else if sig =? SIGKILL then
      _end_container_thread ;;
      time_report ;; ret SLURM_SUCCESS
    else
      log Error
        "Trying to send signal %d a container 0x%08lx that hasn't had anything added to it yet"
        [AInt sig; AInt id] ;;
      time_report ;; ret SLURM_SUCCESS
  else ret SLURM_SUCCESS.

Definition proctrack_p_destroy (native : bool) (id : Z) : M K rc :=
  if native then
    t <- get threadid ;;
    log Debug "destroying 0x%08lx 0x%08lx" [AInt id; AInt t] ;;
    (if t =? 0 then
       _ <- sys (Job_waitjid id) (job_waitjid P id) ;; ret tt
     else ret tt) ;;
    time_report ;;
    ret SLURM_SUCCESS
  else ret SLURM_SUCCESS.

Definition proctrack_p_find (native : bool) (pid : Z) : M K Z :=
  if native then
    jid <- sys (Job_getjid pid) (job_getjid P pid) ;;
    if jid =? jid_fail then ret 0
    else time_report ;; ret (to_uint64 jid)
  else ret 0.

Definition proctrack_p_wait (native : bool) (id : Z) : M K rc :=
  if native then
    t <- get threadid ;;
    if t =? 0 then
      r <- sys (Job_waitjid id) (job_waitjid P id) ;;
      if r =? jid_fail then ret SLURM_ERROR else ret SLURM_SUCCESS
    else ret SLURM_SUCCESS
  else ret SLURM_SUCCESS.

(** The two out-parameters [*pids] and [*npids]: [None] is [NULL], and a
    buffer is given by the pids the job library stored in it. *)
Definition pid_out : Type := (option (list Z) * Z)%type.

(** [sizeof(pid_t) * (pidcnt + 128)] assigned to the [int bufsize]: an
    [int] sum, a [size_t] product, and the conversion back to [int]. *)
Definition bufsize_of (pidcnt : Z) : Z :=
  to_int (to_size_t (sizeof_pid_t * to_size_t (to_int (pidcnt + 128)))).

Definition proctrack_p_get_pids (native : bool) (cont : Z) (out : pid_out)
  : M K (rc * pid_out) :=
  if native then
    pidcnt <- sys (Job_getpidcnt cont) (job_getpidcnt P cont) ;;
    if pidcnt >? 0 then
      let bufsize := bufsize_of pidcnt in
      emit (Xmalloc (to_size_t bufsize)) ;;
      res <- sys (Job_getpidlist cont bufsize) (job_getpidlist P cont bufsize) ;;
      let (pidcnt', p) := res : Z * list Z in
      if pidcnt' =? -1 then
        e <- get (fun s => errno P (kern s)) ;;
        (if negb (e =? ENODATA) then
           log Error "job_getpidlist() failed: %m" []
         else ret tt) ;;
        emit Xfree ;;
        ret (if negb (e =? ENODATA) then SLURM_ERROR else SLURM_SUCCESS,
             (None, 0))
      else
        time_report ;;
        ret (SLURM_SUCCESS, (Some p, pidcnt'))
    else
      time_report ;;
      ret (SLURM_SUCCESS, (None, 0))
  else ret (SLURM_SUCCESS, out).

End Plugin.

(** ** Reading event lists *)

Definition is_log (e : event) : bool :=
  match e with Log _ _ _ => true | _ => false end.

Definition is_attach (e : event) : bool :=
  match e with Job_attachpid _ _ => true | _ => false end.

Definition is_detach (e : event) : bool :=
  match e with Job_detachpid _ => true | _ => false end.

Definition is_kill (e : event) : bool :=
  match e with Job_killjid _ _ => true | _ => false end.

Definition is_retire (e : event) : bool :=
  match e with Cond_signal | Pthread_join _ => true | _ => false end.

(** The events the attach loop, the retirement and the stamping part of
    [proctrack_p_add] can produce. *)
Definition attach_event (e : event) : bool :=
  match e with
  | Job_attachpid _ _ | Job_getjid _ | Job_detachpid _ | Log _ _ _ => true
  | _ => false
  end.

Definition thread_event (e : event) : bool :=
  match e with
  | Mutex_lock _ | Mutex_unlock _ | Cond_signal | Pthread_join _ => true
  | _ => false
  end.

Definition stamp_event (e : event) : bool :=
  match e with
  | Job_setapid _ _ | Open_task_is_app _ | Write_one _ | Close _
  | Log _ _ _ => true
  | _ => false
  end.

(** Two log lines of the attach loop. *)
Definition already_there (pid : Z) : event :=
  Log Debug "%s: Trying to add pid (%d) again to the same container, ignoring."
    [AStr "proctrack_p_add"; AInt pid].

Definition moving (pid jid c : Z) : event :=
  Log Error
    "%s: Pid %d was attached to container %lu incorrectly.  Moving to correct (%lu)."
    [AStr "proctrack_p_add"; AInt pid; AInt jid; AInt c].

Definition tail_event (e : event) : bool := thread_event e || stamp_event e.

(** The path condition of the early [return SLURM_SUCCESS] in
    [proctrack_p_add]: the attach call is made and fails with [EINVAL], and
    the lookup that follows finds [pid] in the step's container. *)
Definition already_member {K} (P : platform K) (pid : Z) (s : stepd K) : bool :=
  negb (proctrack_forked s)
  && (let c := cont_id (step s) in
      let (a1, k1) := job_attachpid P pid c (kern s) in
      (a1 =? jid_fail) && (errno P k1 =? EINVAL)
      && (let (j, _) := job_getjid P pid k1 in
          negb (j =? jid_fail) && (to_uint64 j =? c))).

(** Number of events of a kind in a run. *)
Definition calls (p : event -> bool) (evs : list event) : nat :=
  List.length (filter p evs).

(** The calling thread's events of one retirement of worker [t]. *)
Definition retirement (t : Z) : list event :=
  [Mutex_lock thread_mutex; Mutex_lock notify_mutex; Cond_signal;
   Mutex_unlock notify_mutex; Pthread_join t; Mutex_unlock thread_mutex].

(** The events of [time_report]. *)
Definition timing (on : bool) : list event :=
  if on then [Log Info "call took: %s" []] else [].

(** [m] never changes the component [f] of the state. *)
Definition keeps {K A X : Type} (f : stepd K -> X) (m : M K A) : Prop :=
  forall s a s' evs, m s = Some (a, s', evs) -> f s' = f s.

(** Every event of [m] satisfies [p]. *)
Definition emits {K A : Type} (p : event -> bool) (m : M K A) : Prop :=
  forall s a s' evs, m s = Some (a, s', evs) -> forallb p evs = true.

(** ** Further readings of a run *)

Definition is_join (e : event) : bool :=
  match e with Pthread_join _ => true | _ => false end.

Definition is_getjid (e : event) : bool :=
  match e with Job_getjid _ => true | _ => false end.

Definition is_xmalloc (e : event) : bool :=
  match e with Xmalloc _ => true | _ => false end.

Definition is_xfree (e : event) : bool :=
  match e with Xfree => true | _ => false end.

(** Events that do not touch the mutexes, the condition variable or a
    thread of the calling side. *)
Definition quiet (e : event) : bool :=
  match e with
  | Mutex_lock _ | Mutex_unlock _ | Mutex_destroy _ | Cond_signal | Cond_wait
  | Cond_destroy | Thread_create | Pthread_join _ => false
  | _ => true
  end.

(** The locks the calling thread holds: [thread_mutex], [notify_mutex]. *)
Definition held : Type := (bool * bool)%type.

(** One event against the locking discipline of the file: [notify_mutex]
    is taken and given back inside [thread_mutex]; the condition variable is
    used, and a thread created, with [notify_mutex] held; a thread is joined
    with [thread_mutex] held; the objects are destroyed with nothing held.
    [None] is a breach. *)
Definition sync_step (h : held) (e : event) : option held :=
  let (t, n) := h in
  match e with
  | Mutex_lock thread_mutex => if t then None else Some (true, n)
  | Mutex_lock notify_mutex => if t && negb n then Some (t, true) else None
  | Mutex_unlock notify_mutex => if n then Some (t, false) else None
  | Mutex_unlock thread_mutex => if t && negb n then Some (false, n) else None
  | Cond_signal | Cond_wait | Thread_create => if n then Some h else None
  | Pthread_join _ => if t && negb n then Some h else None
  | Mutex_destroy _ | Cond_destroy => if t || n then None else Some h
  | _ => Some h
  end.

Fixpoint sync_run (h : held) (evs : list event) : option held :=
  match evs with
  | [] => Some h
  | e :: evs' =>
      match sync_step h e with
      | Some h' => sync_run h' evs'
      | None => None
      end
  end.

(** A run that starts and ends with no lock held and never breaches the
    discipline. *)
Definition disciplined (evs : list event) : Prop :=
  sync_run (false, false) evs = Some (false, false).

(** The application id of a step, as [proctrack_p_add] computes it for
    [job_setapid]: [SLURM_ID_HASH] of the job id and the step id, with the
    heterogeneous job id in the job id's place when it is neither zero nor
    [NO_VAL]. *)
Definition apid_of (NO_VAL : Z) (SLURM_ID_HASH : Z -> Z -> Z)
    (st : stepd_step_rec_t) : Z :=
  SLURM_ID_HASH
    (if negb (het_job_id st =? 0) && negb (het_job_id st =? NO_VAL)
     then het_job_id st
     else StepId.job_id (step_id st))
    (StepId.step_id (step_id st)).

(** [m'] returns whatever [m] returns. *)
Definition extends {K A : Type} (m m' : M K A) : Prop :=
  forall s x, m s = Some x -> m' s = Some x.

(** ** The scheduler plugin wrapper

    [rl_wrapper.c] starts and stops the scheduler thread.  [rl_agent],
    [stop_rl_agent], [rl_reconfig] and [priority_g_set] are only declared in
    the repository; they are taken from the [outside] record. *)
Module RL.

Inductive level : Type := Sched_verbose | Debug2 | Verbose.

Inductive event : Type :=
| Log (l : level) (msg : string)
| Mutex_lock
| Mutex_unlock
| Thread_create
| Stop_rl_agent
| Pthread_join (tid : Z)
| Rl_reconfig
| Priority_g_set (last_prio : Z).

(** [K] is the state of the rest of the controller, [J] a job record. *)
Record outside (K J : Type) : Type := mk_outside {
  pthread_create : K -> Z * K;
  stop_rl_agent : K -> K;
  rl_reconfig : K -> K;
  priority_g_set : Z -> J -> K -> Z * K
}.

Arguments pthread_create {K J}.
Arguments stop_rl_agent {K J}.
Arguments rl_reconfig {K J}.
Arguments priority_g_set {K J}.

(** The controller state and the file's static [rl_thread]. *)
Record sched (K : Type) : Type := mk_sched {
  kern : K;
  rl_thread : Z
}.

Arguments mk_sched {K}.
Arguments kern {K}.
Arguments rl_thread {K}.

Section Wrapper.

Context {K J : Type} (O : outside K J).

Definition init (w : sched K) : rc * sched K * list event :=
  if negb (rl_thread w =? 0) then
    (SLURM_ERROR, w,
     [Log Sched_verbose "RLScheduler plugin loaded"; Mutex_lock;
      Log Debug2 "RLScheduler thread already running, not starting another";
      Mutex_unlock])
  else
    let (tid, k) := pthread_create O (kern w) in
    (SLURM_SUCCESS, mk_sched k tid,
     [Log Sched_verbose "RLScheduler plugin loaded"; Mutex_lock;
      Thread_create; Mutex_unlock]).

Definition fini (w : sched K) : sched K * list event :=
  if negb (rl_thread w =? 0) then
    (mk_sched (stop_rl_agent O (kern w)) 0,
     [Mutex_lock; Log Verbose "RLScheduler plugin shutting down";
      Stop_rl_agent; Pthread_join (rl_thread w); Mutex_unlock])
  else (w, [Mutex_lock; Mutex_unlock]).

Definition slurm_sched_p_reconfig (w : sched K) : rc * sched K * list event :=
  (SLURM_SUCCESS, mk_sched (rl_reconfig O (kern w)) (rl_thread w), [Rl_reconfig]).

Definition slurm_sched_p_initial_priority (last_prio : Z) (job_ptr : J)
    (w : sched K) : Z * sched K * list event :=
  let (prio, k) := priority_g_set O last_prio job_ptr (kern w) in
  (prio, mk_sched k (rl_thread w), [Priority_g_set last_prio]).

End Wrapper.

Definition is_create (e : event) : bool :=
  match e with Thread_create => true | _ => false end.

Definition is_lock (e : event) : bool :=
  match e with Mutex_lock => true | _ => false end.

Definition is_unlock (e : event) : bool :=
  match e with Mutex_unlock => true | _ => false end.

(** An outside world for concrete runs: the state counts the threads
    created so far, and the next thread gets the count as its handle. *)
Definition counting : outside Z unit :=
  mk_outside Z unit (fun k => (k + 1, k + 1)) (fun k => k) (fun k => k)
    (fun p _ k => (p, k)).

End RL.

(** ** A scripted platform

    A platform for running the plugin on concrete inputs: every primitive
    takes the next reply off a script, whatever its arguments.  A reply is
    the return value, the [errno] the call leaves (if it sets one) and, for
    [job_getpidlist], the pids stored. *)
Module Mock.

Record reply : Type := mk_reply {
  r_ret : Z;
  r_errno : option Z;
  r_pids : list Z
}.

Record kernel : Type := mk_kernel {
  script : list reply;
  cur_errno : Z
}.

Definition ok (v : Z) : reply := mk_reply v None [].
Definition fails (v e : Z) : reply := mk_reply v (Some e) [].
Definition stored (l : list Z) : reply :=
  mk_reply (Z.of_nat (List.length l)) None l.

Definition answer (k : kernel) : reply * kernel :=
  match script k with
  | [] => (ok 0, k)
  | r :: rest =>
      (r, mk_kernel rest
            (match r_errno r with Some e => e | None => cur_errno k end))
  end.

Definition scalar (k : kernel) : Z * kernel :=
  let (r, k') := answer k in (r_ret r, k').

Definition listing (k : kernel) : (Z * list Z) * kernel :=
  let (r, k') := answer k in ((r_ret r, r_pids r), k').

Definition plat : platform kernel :=
  mk_platform kernel cur_errno
    (fun _ => scalar) (fun _ _ => scalar) (fun _ => scalar)
    (fun _ => scalar) (fun _ _ => scalar) (fun _ _ => scalar)
    (fun _ => scalar) (fun _ => scalar) (fun _ _ => listing)
    (fun _ => scalar) (fun _ => scalar) (fun _ => scalar) scalar
    (fun e k => mk_kernel (script k) e).

(** A step with container [c], worker handle [t], replies [rs]. *)
Definition start (c t : Z) (forked : bool) (rs : list reply) : stepd kernel :=
  mk_stepd (mk_kernel rs 0) (mk_step c 1000 0 (StepId.mk 42 0)) t forked false.

(** The values taken for [NO_VAL] and [SLURM_ID_HASH] in the runs. *)
Definition no_val : Z := 4294967294.
Definition id_hash (jobid stepid : Z) : Z :=
  to_uint64 (Z.shiftl (to_uint64 stepid) 32 + jobid).

(** [proctrack_p_add] on the scripted platform. *)
Definition add : nat -> bool -> Z -> M kernel rc :=
  proctrack_p_add plat no_val id_hash.

(** The scripted platform with a [close] that always succeeds. *)
Definition plat_closing : platform kernel :=
  mk_platform kernel cur_errno
    (fun _ => scalar) (fun _ _ => scalar) (fun _ => scalar)
    (fun _ => scalar) (fun _ _ => scalar) (fun _ _ => scalar)
    (fun _ => scalar) (fun _ => scalar) (fun _ _ => listing)
    (fun _ => scalar) (fun _ => scalar) (fun _ k => (0, k)) scalar
    (fun e k => mk_kernel (script k) e).

End Mock.

(** ** Properties *)

Lemma with_kern_twice {K} (k k' : K) (s : stepd K) :
  with_kern k (with_kern k' s) = with_kern k s.
Proof. reflexivity. Qed.

Lemma forallb_is_log_timing (on : bool) : forallb is_log (timing on) = true.
Proof. destruct on; reflexivity. Qed.

Arguments jid_fail : simpl never.
Arguments sizeof_pid_t : simpl never.
Arguments to_uint64 : simpl never.
Arguments to_size_t : simpl never.
Arguments to_int : simpl never.
Arguments EINVAL : simpl never.
Arguments EINTR : simpl never.
Arguments ENODATA : simpl never.
Arguments EBADF : simpl never.
Arguments SIGKILL : simpl never.
Arguments time_report : simpl never.
Arguments _end_container_thread : simpl never.

(** Unfolds the monad, leaving the platform's answers to be named. *)
Ltac run :=
  unfold bind, get, sys, emit, log, ret, diverge, set_threadid, set_cont_id,
    in_worker; cbn.

Ltac answer f := destruct f as [? ?] eqn:?; cbn.

(** *** What a computation leaves alone, and what it may emit *)

Section Frames.

Context {K : Type}.

Lemma bind_inv {A B} (m : M K A) (f : A -> M K B) s b s2 evs :
  bind m f s = Some (b, s2, evs) ->
  exists a s1 e1 e2,
    m s = Some (a, s1, e1) /\ f a s1 = Some (b, s2, e2) /\ evs = e1 ++ e2.
Proof.
  unfold bind. destruct (m s) as [[[a s1] e1] |] eqn:Em; [| discriminate].
  destruct (f a s1) as [[[b' s2'] e2] |] eqn:Ef; [| discriminate].
  intros H; inversion H; subst. exists a, s1, e1, e2. auto.
Qed.

Section Keeps.

Context {X : Type} (f : stepd K -> X).

Lemma keeps_ret {A} (a : A) : keeps f (ret a).
Proof. intros s a' s' evs H; inversion H; reflexivity. Qed.

Lemma keeps_diverge {A} : keeps f (@diverge K A).
Proof. intros s a' s' evs H; discriminate. Qed.

Lemma keeps_get {A} (g : stepd K -> A) : keeps f (get g).
Proof. intros s a' s' evs H; inversion H; reflexivity. Qed.

Lemma keeps_emit (e : event) : keeps f (emit e).
Proof. intros s a' s' evs H; inversion H; reflexivity. Qed.

Lemma keeps_log l fmt args : keeps f (@log K l fmt args).
Proof. apply keeps_emit. Qed.

Lemma keeps_time_report : keeps f (@time_report K).
Proof.
  intros s a' s' evs. unfold time_report; run.
  destruct (time_cray s); intros H; inversion H; reflexivity.
Qed.

Lemma keeps_bind {A B} (m : M K A) (k : A -> M K B) :
  keeps f m -> (forall a, keeps f (k a)) -> keeps f (bind m k).
Proof.
  intros Hm Hk s b s2 evs H.
  destruct (bind_inv _ _ _ _ _ _ H) as (a & s1 & e1 & e2 & H1 & H2 & _).
  rewrite (Hk _ _ _ _ _ H2). exact (Hm _ _ _ _ H1).
Qed.

(** [f] does not look at the kernel. *)
Hypothesis kern_blind : forall k s, f (with_kern k s) = f s.

Lemma keeps_sys {A} (e : event) (g : K -> A * K) : keeps f (sys e g).
Proof.
  intros s a' s' evs. unfold sys. destruct (g (kern s)) as [a k].
  intros H; inversion H; subst. apply kern_blind.
Qed.

End Keeps.

Lemma keeps_set_threadid {X} (f : stepd K -> X) (t : Z) :
  (forall t' s, f (with_threadid t' s) = f s) -> keeps f (set_threadid t).
Proof. intros Hf s a s' evs H; inversion H; subst. apply Hf. Qed.

Section Emits.

Variable p : event -> bool.

Lemma emits_ret {A} (a : A) : emits p (@ret K A a).
Proof. intros s a' s' evs H; inversion H; reflexivity. Qed.

Lemma emits_diverge {A} : emits p (@diverge K A).
Proof. intros s a' s' evs H; discriminate. Qed.

Lemma emits_get {A} (g : stepd K -> A) : emits p (get g).
Proof. intros s a' s' evs H; inversion H; reflexivity. Qed.

Lemma emits_set_threadid (t : Z) : emits p (@set_threadid K t).
Proof. intros s a' s' evs H; inversion H; reflexivity. Qed.

Lemma emits_emit (e : event) : p e = true -> emits p (@emit K e).
Proof.
  intros He s a' s' evs H; inversion H; subst. cbn. rewrite He. reflexivity.
Qed.

Lemma emits_sys {A} (e : event) (g : K -> A * K) :
  p e = true -> emits p (sys e g).
Proof.
  intros He s a' s' evs. unfold sys. destruct (g (kern s)) as [a k].
  intros H; inversion H; subst. cbn. rewrite He. reflexivity.
Qed.

Lemma emits_bind {A B} (m : M K A) (k : A -> M K B) :
  emits p m -> (forall a, emits p (k a)) -> emits p (bind m k).
Proof.
  intros Hm Hk s b s2 evs H.
  destruct (bind_inv _ _ _ _ _ _ H) as (a & s1 & e1 & e2 & H1 & H2 & ->).
  rewrite forallb_app, (Hm _ _ _ _ H1), (Hk _ _ _ _ _ H2). reflexivity.
Qed.

Lemma emits_time_report : p (Log Info "call took: %s" []) = true ->
  emits p (@time_report K).
Proof.
  intros He s a' s' evs. unfold time_report; run.
  destruct (time_cray s); intros H; inversion H; subst; cbn;
    rewrite ?He; reflexivity.
Qed.

End Emits.

Lemma emits_weaken {A} (p q : event -> bool) (m : M K A) :
  (forall e, p e = true -> q e = true) -> emits p m -> emits q m.
Proof.
  intros Hpq Hm s a s' evs H. specialize (Hm _ _ _ _ H).
  rewrite forallb_forall in *. auto.
Qed.

(** Events that all satisfy [q], where [q] excludes [p], hold no [p]. *)
Lemma calls_none (p q : event -> bool) (evs : list event) :
  (forall e, q e = true -> p e = false) ->
  forallb q evs = true -> calls p evs = 0%nat.
Proof.
  intros Hpq. unfold calls. induction evs as [| e evs IH]; cbn; [reflexivity |].
  intros H. apply andb_true_iff in H as [He Hr].
  rewrite (Hpq e He). auto.
Qed.

End Frames.

(** Splits a goal about a composite computation along its structure. *)
Ltac frame_step :=
  first
    [ apply keeps_ret | apply keeps_diverge | apply keeps_get
    | apply keeps_emit | apply keeps_log | apply keeps_time_report
    | assumption
    | match goal with H : forall _, keeps _ _ |- _ => apply H end
    | match goal with H : forall _, emits _ _ |- _ => apply H end
    | apply keeps_sys; intros; solve [reflexivity | auto]
    | apply keeps_set_threadid; intros; solve [reflexivity | auto]
    | apply keeps_bind; [| intros]
    | apply emits_ret | apply emits_diverge | apply emits_get
    | apply emits_set_threadid
    | apply emits_emit; reflexivity | apply emits_sys; reflexivity
    | apply emits_time_report; reflexivity
    | apply emits_bind; [| intros]
    | match goal with
      | |- keeps _ (if ?b then _ else _) => destruct b
      | |- emits _ (if ?b then _ else _) => destruct b
      | |- keeps _ (match ?o with _ => _ end) => destruct o
      | |- emits _ (match ?o with _ => _ end) => destruct o
      end ].

Ltac frame := repeat frame_step.

Section Properties.

Context {K : Type} (P : platform K).
Variable NO_VAL : Z.
Variable SLURM_ID_HASH : Z -> Z -> Z.

Lemma time_report_run (s : stepd K) :
  time_report s = Some (tt, s, timing (time_cray s)).
Proof. unfold time_report; run. destruct (time_cray s); reflexivity. Qed.

(** Retirement with a worker outstanding: the handle is cleared and the
    events are those of [retirement]. *)
Lemma end_container_thread_pending (s : stepd K) :
  threadid s <> 0 ->
  _end_container_thread s
  = Some (tt, with_threadid 0 s, retirement (threadid s)).
Proof.
  intros H. unfold _end_container_thread; run.
  destruct (Z.eqb_spec (threadid s) 0) as [E | _]; [contradiction | reflexivity].
Qed.

(** Retirement with no worker outstanding does nothing. *)
Lemma end_container_thread_idle (s : stepd K) :
  threadid s = 0 -> _end_container_thread s = Some (tt, s, []).
Proof.
  intros H. unfold _end_container_thread; run. rewrite H. reflexivity.
Qed.

(** Without [HAVE_NATIVE_CRAY] the entry points other than
    [proctrack_p_create] are stubs: they return their success value and
    touch nothing. *)
Lemma without_native_cray (fuel : nat) (id sig pid : Z) (out : pid_out)
    (s : stepd K) :
  proctrack_p_add P NO_VAL SLURM_ID_HASH fuel false pid s
  = Some (SLURM_SUCCESS, s, [])
  /\ proctrack_p_signal P false id sig s = Some (SLURM_SUCCESS, s, [])
  /\ proctrack_p_destroy P false id s = Some (SLURM_SUCCESS, s, [])
  /\ proctrack_p_wait P false id s = Some (SLURM_SUCCESS, s, [])
  /\ proctrack_p_find P false pid s = Some (0, s, [])
  /\ proctrack_p_has_pid P false id pid s = Some (true, s, [])
  /\ proctrack_p_get_pids P false id out s = Some ((SLURM_SUCCESS, out), s, []).
Proof. repeat split. Qed.


(** C2.  On a step whose container id is already non-zero,
    [proctrack_p_create] returns [SLURM_SUCCESS], leaves the whole process
    state (container id, kernel, worker handle) as it was, and does nothing
    but write log lines: no creation call and no thread.  Calling it a
    second time does the same again. *)
Theorem create_existing_container_is_noop (native : bool) (s : stepd K) :
  cont_id (step s) <> 0 ->
  exists evs,
    proctrack_p_create P native s = Some (SLURM_SUCCESS, s, evs)
    /\ forallb is_log evs = true
    /\ In (Log Error "proctrack_p_create: already have a cont_id" []) evs
    /\ (proctrack_p_create P native ;; proctrack_p_create P native) s
       = Some (SLURM_SUCCESS, s, evs ++ evs).
Proof.
  intros H.
  assert (E : proctrack_p_create P native s
              = Some (SLURM_SUCCESS, s,
                      [Log Debug "%s loaded" [AStr plugin_name];
                       Log Error "proctrack_p_create: already have a cont_id" []]
                      ++ timing (time_cray s))).
  { unfold proctrack_p_create, init, libjob_handle; run.
    destruct (Z.eqb_spec (cont_id (step s)) 0) as [E | _]; [contradiction |].
    cbn. rewrite time_report_run. cbn. rewrite ?app_nil_r. reflexivity. }
  eexists. split; [exact E |]. split; [| split].
  - cbn. apply forallb_is_log_timing.
  - cbn. auto.
  - unfold bind at 1. rewrite E, E. reflexivity.
Qed.

(** C5.  [proctrack_p_destroy] returns [SLURM_SUCCESS] in every state and
    on every platform: with or without a worker outstanding, whatever
    [job_waitjid] answers, in both builds.  The worker handle and the step
    are left alone. *)
Theorem destroy_always_succeeds (native : bool) (id : Z) (s : stepd K) :
  exists s' evs,
    proctrack_p_destroy P native id s = Some (SLURM_SUCCESS, s', evs)
    /\ threadid s' = threadid s
    /\ step s' = step s.
Proof.
  unfold proctrack_p_destroy. destruct native; [| run; eauto].
  run. destruct (threadid s =? 0); cbn.
  - unfold sys; cbn. answer (job_waitjid P id (kern s)).
    rewrite time_report_run. cbn. rewrite ?app_nil_r. eauto.
  - rewrite time_report_run. cbn. rewrite ?app_nil_r. eauto.
Qed.

(** C6.  [proctrack_p_wait] with a worker outstanding returns
    [SLURM_SUCCESS] at once, with no call of [job_waitjid] (no event at
    all); with none outstanding it calls [job_waitjid] once and returns
    [SLURM_ERROR] exactly when that call fails. *)
Theorem wait_pending_or_platform (id : Z) (s : stepd K) :
  (threadid s <> 0 ->
     proctrack_p_wait P true id s = Some (SLURM_SUCCESS, s, []))
  /\ (threadid s = 0 ->
        exists r,
          proctrack_p_wait P true id s
          = Some (r, with_kern (snd (job_waitjid P id (kern s))) s,
                  [Job_waitjid id])
          /\ (r = SLURM_ERROR <-> fst (job_waitjid P id (kern s)) = jid_fail)
          /\ (r = SLURM_SUCCESS <-> fst (job_waitjid P id (kern s)) <> jid_fail)).
Proof.
  unfold proctrack_p_wait; run. split; intros H.
  - destruct (Z.eqb_spec (threadid s) 0); [contradiction | reflexivity].
  - rewrite H; cbn. answer (job_waitjid P id (kern s)).
    destruct (Z.eqb_spec z jid_fail); cbn; eexists; (split; [reflexivity |]);
      split; split; intros; congruence.
Qed.

(** C8.  [proctrack_p_has_pid] makes one [job_getjid] lookup and returns
    [true] exactly when the lookup succeeds and the id it gives, as a
    [uint64_t], is the container id asked about.  A failed lookup gives
    [false]; the function has no error result. *)
Theorem has_pid_iff_lookup (cont pid : Z) (s : stepd K) :
  exists b,
    proctrack_p_has_pid P true cont pid s
    = Some (b, with_kern (snd (job_getjid P pid (kern s))) s, [Job_getjid pid])
    /\ (b = true <->
        fst (job_getjid P pid (kern s)) <> jid_fail
        /\ to_uint64 (fst (job_getjid P pid (kern s))) = cont).
Proof.
  unfold proctrack_p_has_pid; run. answer (job_getjid P pid (kern s)).
  destruct (Z.eqb_spec z jid_fail); cbn.
  - exists false. split; [reflexivity |]. split; [discriminate | tauto].
  - destruct (Z.eqb_spec (to_uint64 z) cont); cbn.
    + exists true. split; [reflexivity |]. tauto.
    + exists false. split; [reflexivity |]. split; [discriminate | tauto].
Qed.

(** C4, as the code has it.  [proctrack_p_signal] with a worker
    outstanding and [SIGKILL], the one signal the code tests for:
    the worker is retired and the call returns [SLURM_SUCCESS] with no
    [job_killjid] call.  With a worker outstanding and another signal: the
    misuse is logged as an error line and the call returns
    [SLURM_SUCCESS], again without [job_killjid].  With no worker
    outstanding: [job_killjid] is called once with the container and the
    signal, and the call returns [SLURM_ERROR] exactly when that call
    fails with an [errno] other than [ENODATA] and [EBADF]. *)
Theorem signal_pending_or_platform (id sig : Z) (s : stepd K) :
  (threadid s <> 0 -> sig = SIGKILL ->
     exists evs,
       proctrack_p_signal P true id sig s
       = Some (SLURM_SUCCESS, with_threadid 0 s, evs)
       /\ evs = retirement (threadid s) ++ timing (time_cray s)
       /\ calls is_kill evs = 0%nat)
  /\ (threadid s <> 0 -> sig <> SIGKILL ->
        exists evs,
          proctrack_p_signal P true id sig s = Some (SLURM_SUCCESS, s, evs)
          /\ evs = Log Error
                     "Trying to send signal %d a container 0x%08lx that hasn't had anything added to it yet"
                     [AInt sig; AInt id] :: timing (time_cray s)
          /\ calls is_kill evs = 0%nat)
  /\ (threadid s = 0 ->
        let r := fst (job_killjid P id sig (kern s)) in
        let k := snd (job_killjid P id sig (kern s)) in
        exists res evs,
          proctrack_p_signal P true id sig s
          = Some (res, with_kern k s, Job_killjid id sig :: evs)
          /\ forallb is_log evs = true
          /\ (res = SLURM_ERROR <->
              r < 0 /\ errno P k <> ENODATA /\ errno P k <> EBADF)
          /\ (res = SLURM_SUCCESS <->
              0 <= r \/ errno P k = ENODATA \/ errno P k = EBADF)).
Proof.
  unfold proctrack_p_signal. split; [| split].
  - intros Ht Hs. run.
    destruct (Z.eqb_spec (threadid s) 0); [contradiction |].
    destruct (Z.eqb_spec sig SIGKILL); [| contradiction].
    rewrite (end_container_thread_pending s Ht), time_report_run. cbn.
    rewrite ?app_nil_r.
    eexists. split; [reflexivity |]. split; [reflexivity |].
    destruct (time_cray s); reflexivity.
  - intros Ht Hs. run.
    destruct (Z.eqb_spec (threadid s) 0); [contradiction |].
    destruct (Z.eqb_spec sig SIGKILL); [contradiction |].
    cbn. rewrite time_report_run. cbn. rewrite ?app_nil_r.
    eexists. split; [reflexivity |]. split; [reflexivity |].
    destruct (time_cray s); reflexivity.
  - intros Ht. run. rewrite Ht. cbn.
    answer (job_killjid P id sig (kern s)).
    destruct (Z.ltb_spec z 0), (Z.eqb_spec (errno P k) ENODATA),
      (Z.eqb_spec (errno P k) EBADF); cbn;
      try rewrite time_report_run; cbn; rewrite ?app_nil_r;
      do 2 eexists; (split; [reflexivity |]);
      (split; [try reflexivity; apply forallb_is_log_timing |]);
      split; split; intros; try discriminate; try reflexivity; lia.
Qed.

Lemma to_int_le (x : Z) : - 2 ^ 31 <= x -> to_int x <= x.
Proof.
  intros H. unfold to_int.
  assert ((x + 2 ^ 31) mod 2 ^ 32 <= x + 2 ^ 31) by (apply Z.mod_le; lia).
  lia.
Qed.

Lemma to_int_range (x : Z) : - 2 ^ 31 <= to_int x < 2 ^ 31.
Proof.
  unfold to_int.
  assert (0 <= (x + 2 ^ 31) mod 2 ^ 32 < 2 ^ 32) by (apply Z.mod_pos_bound; lia).
  lia.
Qed.

Lemma to_int_small (x : Z) : - 2 ^ 31 <= x < 2 ^ 31 -> to_int x = x.
Proof.
  intros H. unfold to_int. rewrite Z.mod_small; lia.
Qed.

(** The buffer size handed to [job_getpidlist] never stands for more than
    [pidcnt + 128] pids, wrap-around included. *)
Lemma bufsize_of_le (pidcnt : Z) :
  0 < pidcnt -> bufsize_of pidcnt <= sizeof_pid_t * (pidcnt + 128).
Proof.
  intros H. unfold bufsize_of, sizeof_pid_t, to_size_t.
  pose proof (to_int_range (pidcnt + 128)) as Hn.
  destruct (Z_lt_le_dec (to_int (pidcnt + 128)) 0) as [Hneg | Hpos].
  - assert (2 ^ 31 <= pidcnt + 128).
    { destruct (Z_lt_le_dec (pidcnt + 128) (2 ^ 31)) as [Hs | ]; [| assumption].
      rewrite to_int_small in Hneg; lia. }
    pose proof (to_int_range ((4 * (to_int (pidcnt + 128) mod 2 ^ 64)) mod 2 ^ 64)).
    lia.
  - pose proof (to_int_le (pidcnt + 128) ltac:(lia)).
    rewrite (Z.mod_small (to_int (pidcnt + 128))) by lia.
    rewrite Z.mod_small by lia.
    pose proof (to_int_le (4 * to_int (pidcnt + 128)) ltac:(lia)). lia.
Qed.

(** C7, as the code has it.  [proctrack_p_get_pids] asks [job_getpidcnt]
    first.  A count that
    is not positive gives [SLURM_SUCCESS] with a null list and zero count,
    and no list call.  Otherwise [job_getpidlist] is called once, with a
    buffer whose size stands for at most [count + 128] pids; a [-1] from it
    gives the null list and zero count, with [SLURM_SUCCESS] when [errno]
    is [ENODATA] and [SLURM_ERROR] otherwise; any other answer is handed
    out with [SLURM_SUCCESS], and it is at most [count + 128] as long as
    the library stored no more pids than the buffer holds. *)
Theorem get_pids_count_then_list (cont : Z) (out : pid_out) (s : stepd K) :
  let cnt := fst (job_getpidcnt P cont (kern s)) in
  let k1 := snd (job_getpidcnt P cont (kern s)) in
  let bufsize := bufsize_of cnt in
  let n := fst (fst (job_getpidlist P cont bufsize k1)) in
  let p := snd (fst (job_getpidlist P cont bufsize k1)) in
  let k2 := snd (job_getpidlist P cont bufsize k1) in
  (cnt <= 0 ->
     exists evs,
       proctrack_p_get_pids P true cont out s
       = Some ((SLURM_SUCCESS, (None, 0)), with_kern k1 s,
               Job_getpidcnt cont :: evs)
       /\ forallb is_log evs = true)
  /\ (0 < cnt ->
        bufsize <= sizeof_pid_t * (cnt + 128)
        /\ exists r o evs,
             proctrack_p_get_pids P true cont out s
             = Some ((r, o), with_kern k2 s,
                     Job_getpidcnt cont :: Xmalloc (to_size_t bufsize)
                     :: Job_getpidlist cont bufsize :: evs)
             /\ forallb (fun e => is_log e || match e with Xfree => true | _ => false end)
                  evs = true
             /\ (n = -1 -> errno P k2 = ENODATA ->
                  r = SLURM_SUCCESS /\ o = (None, 0))
             /\ (n = -1 -> errno P k2 <> ENODATA ->
                  r = SLURM_ERROR /\ o = (None, 0))
             /\ (n <> -1 ->
                  r = SLURM_SUCCESS /\ o = (Some p, n)
                  /\ (sizeof_pid_t * n <= bufsize -> n <= cnt + 128))).
Proof.
  unfold proctrack_p_get_pids. cbv zeta. split.
  - intros Hc. run. answer (job_getpidcnt P cont (kern s)).
    cbn in Hc. destruct (Z.gtb_spec z 0); [lia |].
    rewrite time_report_run. cbn. rewrite ?app_nil_r. eexists. split; [reflexivity |].
    apply forallb_is_log_timing.
  - intros Hc. split; [apply bufsize_of_le; exact Hc |].
    run. answer (job_getpidcnt P cont (kern s)).
    cbn in Hc. destruct (Z.gtb_spec z 0); [| lia].
    cbn. destruct (job_getpidlist P cont (bufsize_of z) k) as [[n l] k0] eqn:El.
    cbn.
    pose proof (bufsize_of_le z Hc) as Hb.
    destruct (Z.eqb_spec n (-1)) as [En | En]; cbn.
    + destruct (Z.eqb_spec (errno P k0) ENODATA); cbn;
        do 3 eexists; (split; [reflexivity |]); (split; [reflexivity |]);
        repeat split; intros; congruence.
    + rewrite time_report_run. cbn. rewrite ?app_nil_r.
      do 3 eexists. split; [reflexivity |]. split.
      { destruct (time_cray s); reflexivity. }
      repeat split; intros; try congruence.
      unfold sizeof_pid_t in *. lia.
Qed.

(** *** The attach loop *)

Lemma close_keeps {X} (f : stepd K -> X) (fuel : nat) (fd : Z) :
  (forall k s, f (with_kern k s) = f s) ->
  keeps f (temp_failure_retry_close P fuel fd).
Proof.
  intros Hf. induction fuel; cbn [temp_failure_retry_close]; frame.
Qed.

Lemma close_emits (fuel : nat) (fd : Z) :
  emits stamp_event (temp_failure_retry_close P fuel fd).
Proof.
  induction fuel; cbn [temp_failure_retry_close]; frame.
Qed.

Lemma stamp_keeps {X} (f : stepd K -> X) (fuel : nat) (pid : Z) :
  (forall k s, f (with_kern k s) = f s) ->
  keeps f (stamp_application P NO_VAL SLURM_ID_HASH fuel pid).
Proof.
  intros Hf. unfold stamp_application. frame; apply close_keeps; exact Hf.
Qed.

Lemma stamp_emits (fuel : nat) (pid : Z) :
  emits stamp_event (stamp_application P NO_VAL SLURM_ID_HASH fuel pid).
Proof.
  unfold stamp_application. frame; apply close_emits.
Qed.

Lemma try_again_keeps {X} (f : stepd K -> X) (fuel : nat) (pid : Z) :
  (forall k s, f (with_kern k s) = f s) ->
  forall count, keeps f (try_again P fuel pid count).
Proof.
  intros Hf. induction fuel; intros count; cbn [try_again]; frame.
Qed.

Lemma end_container_thread_keeps {X} (f : stepd K -> X) :
  (forall t s, f (with_threadid t s) = f s) ->
  keeps f (_end_container_thread (K := K)).
Proof. intros Hf. unfold _end_container_thread. frame. Qed.

Lemma end_container_thread_emits :
  emits thread_event (_end_container_thread (K := K)).
Proof. unfold _end_container_thread. frame. Qed.

(** The retry, [count = 1]: one attach call and no second chance. *)
Lemma try_again_retry (fuel : nat) (pid : Z) (s : stepd K) :
  proctrack_forked s = false ->
  try_again P (S fuel) pid 1 s
  = let c := cont_id (step s) in
    let (a, k) := job_attachpid P pid c (kern s) in
    if a =? jid_fail then
      Some (Returned SLURM_ERROR, with_kern k s,
            [Job_attachpid pid c;
             Log Error "Failed to attach pid %d to job container: %m" [AInt pid]])
    else Some (Attached, with_kern k s, [Job_attachpid pid c]).
Proof.
  intros Hf. remember fuel as f0. cbn [try_again].
  unfold proctrack_p_has_pid. run. rewrite Hf. cbn.
  destruct (job_attachpid P pid (cont_id (step s)) (kern s)) as [a k]. cbn.
  destruct (a =? jid_fail); cbn; [| reflexivity].
  rewrite andb_false_r. reflexivity.
Qed.

(** The loop entered with [count = 0], unrolled: it is entered at most
    twice, so two units of fuel are enough. *)
Lemma try_again_unrolled (fuel : nat) (pid : Z) (s : stepd K) :
  proctrack_forked s = false ->
  try_again P (S (S fuel)) pid 0 s
  = let c := cont_id (step s) in
    let (a1, k1) := job_attachpid P pid c (kern s) in
    if a1 =? jid_fail then
      if errno P k1 =? EINVAL then
        let (j, k2) := job_getjid P pid k1 in
        if negb (j =? jid_fail) && (to_uint64 j =? c) then
          Some (Returned SLURM_SUCCESS, with_kern k2 s,
                [Job_attachpid pid c; Job_getjid pid; already_there pid])
        else
          let (d, k3) := job_detachpid P pid k2 in
          if d =? jid_fail then
            Some (Returned SLURM_ERROR, with_kern k3 s,
                  [Job_attachpid pid c; Job_getjid pid; Job_detachpid pid;
                   Log Error "%s: Couldn't detach pid %d from container: %m"
                     [AStr "proctrack_p_add"; AInt pid]])
          else
            let (a2, k4) := job_attachpid P pid c k3 in
            if a2 =? jid_fail then
              Some (Returned SLURM_ERROR, with_kern k4 s,
                    [Job_attachpid pid c; Job_getjid pid; Job_detachpid pid;
                     moving pid d c; Job_attachpid pid c;
                     Log Error "Failed to attach pid %d to job container: %m"
                       [AInt pid]])
            else
              Some (Attached, with_kern k4 s,
                    [Job_attachpid pid c; Job_getjid pid; Job_detachpid pid;
                     moving pid d c; Job_attachpid pid c])
      else
        Some (Returned SLURM_ERROR, with_kern k1 s,
              [Job_attachpid pid c;
               Log Error "Failed to attach pid %d to job container: %m" [AInt pid]])
    else Some (Attached, with_kern k1 s, [Job_attachpid pid c]).
Proof.
  intros Hf. remember (S fuel) as f1 eqn:Ef1. cbn [try_again].
  unfold proctrack_p_has_pid. run. rewrite Hf. cbn.
  destruct (job_attachpid P pid (cont_id (step s)) (kern s)) as [a1 k1]. cbn.
  destruct (a1 =? jid_fail); cbn; [| reflexivity].
  destruct (errno P k1 =? EINVAL); cbn; [| reflexivity].
  destruct (job_getjid P pid k1) as [j k2]. cbn.
  assert (Hretry : forall k3,
    try_again P f1 pid 1 (with_kern k3 s)
    = let (a2, k4) := job_attachpid P pid (cont_id (step s)) k3 in
      if a2 =? jid_fail then
        Some (Returned SLURM_ERROR, with_kern k4 s,
              [Job_attachpid pid (cont_id (step s));
               Log Error "Failed to attach pid %d to job container: %m"
                 [AInt pid]])
      else Some (Attached, with_kern k4 s, [Job_attachpid pid (cont_id (step s))])).
  { intros k3. subst f1. rewrite try_again_retry by exact Hf. reflexivity. }
  destruct (j =? jid_fail); cbn.
  - destruct (job_detachpid P pid k2) as [d k3]. cbn.
    destruct (d =? jid_fail); cbn; [reflexivity |].
    rewrite !with_kern_twice, Hretry.
    destruct (job_attachpid P pid (cont_id (step s)) k3) as [a2 k4].
    destruct (a2 =? jid_fail); reflexivity.
  - destruct (to_uint64 j =? cont_id (step s)); cbn; [reflexivity |].
    destruct (job_detachpid P pid k2) as [d k3]. cbn.
    destruct (d =? jid_fail); cbn; [reflexivity |].
    rewrite !with_kern_twice, Hretry.
    destruct (job_attachpid P pid (cont_id (step s)) k3) as [a2 k4].
    destruct (a2 =? jid_fail); reflexivity.
Qed.

Lemma try_again_emits (fuel : nat) (pid : Z) :
  forall count, emits attach_event (try_again P fuel pid count).
Proof.
  induction fuel; intros count; cbn [try_again]; frame.
Qed.

(** From [_end_container_thread()] to the end of [proctrack_p_add]. *)
Lemma tail_emits (fuel : nat) (pid : Z) :
  emits tail_event
    (_end_container_thread ;; stamp_application P NO_VAL SLURM_ID_HASH fuel pid).
Proof.
  apply emits_bind; [| intros _].
  - apply (emits_weaken thread_event); [| apply end_container_thread_emits].
    intros e He. unfold tail_event. rewrite He. reflexivity.
  - apply (emits_weaken stamp_event); [| apply stamp_emits].
    intros e He. unfold tail_event. rewrite He. apply orb_true_r.
Qed.

Lemma tail_no_attach (evs : list event) :
  forallb tail_event evs = true ->
  calls is_attach evs = 0%nat /\ calls is_detach evs = 0%nat.
Proof.
  intros H. split; apply (calls_none _ tail_event); try exact H;
    intros [] He; try reflexivity; discriminate He.
Qed.

(** Once [count] is past zero the loop cannot return success by itself. *)
Lemma try_again_counted (fuel : nat) (pid count : Z) (s s1 : stepd K) o e1 :
  1 <= count ->
  try_again P fuel pid count s = Some (o, s1, e1) ->
  o <> Returned SLURM_SUCCESS.
Proof.
  intros Hc. destruct fuel as [| fuel]; [discriminate |].
  remember fuel as f0. cbn [try_again]. unfold proctrack_p_has_pid. run.
  destruct (proctrack_forked s); cbn; [intros H; inversion H; discriminate |].
  destruct (job_attachpid P pid (cont_id (step s)) (kern s)) as [a k]. cbn.
  destruct (a =? jid_fail); cbn; [| intros H; inversion H; discriminate].
  destruct (Z.ltb_spec count 1) as [Hlt | Hge]; [lia |]. rewrite andb_false_r.
  intros Hr; inversion Hr; discriminate.
Qed.

(** The loop entered with [count = 0] returns success by itself exactly
    on the path [already_member] describes, whatever the fuel. *)
Lemma try_again_success_iff (fuel : nat) (pid : Z) (s s1 : stepd K) o e1 :
  try_again P fuel pid 0 s = Some (o, s1, e1) ->
  (o = Returned SLURM_SUCCESS <-> already_member P pid s = true).
Proof.
  unfold already_member.
  destruct fuel as [| fuel]; [discriminate |].
  remember fuel as f0. cbn [try_again]. unfold proctrack_p_has_pid. run.
  destruct (proctrack_forked s); cbn;
    [intros H; inversion H; split; discriminate |].
  destruct (job_attachpid P pid (cont_id (step s)) (kern s)) as [a k]. cbn.
  destruct (a =? jid_fail); cbn;
    [| intros H; inversion H; split; discriminate].
  destruct (errno P k =? EINVAL); cbn;
    [| intros H; inversion H; split; discriminate].
  destruct (job_getjid P pid k) as [j k2]. cbn.
  assert (Hrec : forall d k3 (rest : list event -> list event),
    match
      (if negb (d =? jid_fail) then
         match try_again P f0 pid 1 (with_kern k3 (with_kern k2 (with_kern k s))) with
         | Some (b, s2, e2) => Some (b, s2, moving pid d (cont_id (step s)) :: e2)
         | None => None
         end
       else Some (Returned SLURM_ERROR, with_kern k3 (with_kern k2 (with_kern k s)),
                  [Log Error "%s: Couldn't detach pid %d from container: %m"
                     [AStr "proctrack_p_add"; AInt pid]]))
    with
    | Some (b, s2, e2) => Some (b, s2, rest e2)
    | None => None
    end = Some (o, s1, e1) -> o <> Returned SLURM_SUCCESS).
  { intros d k3 rest. destruct (negb (d =? jid_fail)).
    - destruct (try_again P f0 pid 1 _) as [[[b s2] e2] |] eqn:Er; [| discriminate].
      intros Hr; inversion Hr; subst b.
      eapply try_again_counted; [| exact Er]. lia.
    - intros Hr; inversion Hr; discriminate. }
  destruct (j =? jid_fail); cbn.
  - destruct (job_detachpid P pid k2) as [d k3]. cbn.
    intros Hr. split; [| discriminate]. intros Ho. exfalso.
    revert Ho. apply (Hrec d k3 (fun e2 =>
      Job_attachpid pid (cont_id (step s)) :: Job_getjid pid
      :: Job_detachpid pid :: e2)).
    destruct (negb (d =? jid_fail)); cbn;
      [destruct (try_again P f0 pid 1 _) as [[[b s2] e2] |] |]; exact Hr.
  - destruct (to_uint64 j =? cont_id (step s)); cbn.
    + intros Hr; inversion Hr; split; reflexivity.
    + destruct (job_detachpid P pid k2) as [d k3]. cbn.
      intros Hr. split; [| discriminate]. intros Ho. exfalso.
      revert Ho. apply (Hrec d k3 (fun e2 =>
        Job_attachpid pid (cont_id (step s)) :: Job_getjid pid
        :: Job_detachpid pid :: e2)).
      destruct (negb (d =? jid_fail)); cbn;
        [destruct (try_again P f0 pid 1 _) as [[[b s2] e2] |] |]; exact Hr.
Qed.

(** *** [proctrack_p_add] *)

(** [proctrack_p_add] by the outcome of its attach loop. *)
Lemma add_unrolled (fuel : nat) (pid : Z) (s : stepd K) :
  proctrack_p_add P NO_VAL SLURM_ID_HASH fuel true pid s
  = match try_again P fuel pid 0 s with
    | Some (Returned r, s1, e1) => Some (r, s1, e1)
    | Some (Attached, s1, e1) =>
        match (_end_container_thread ;;
               stamp_application P NO_VAL SLURM_ID_HASH fuel pid) s1 with
        | Some (b, s2, e2) => Some (b, s2, e1 ++ e2)
        | None => None
        end
    | None => None
    end.
Proof.
  unfold proctrack_p_add. unfold bind at 1.
  destruct (try_again P fuel pid 0 s) as [[[[r |] s1] e1] |]; try reflexivity.
  cbn. rewrite app_nil_r. reflexivity.
Qed.

(** C10.  [proctrack_p_add] only reads the step record: whenever it
    returns, with success or with an error and in either build, the step
    record, and so its container id, is what it was at the call. *)
Theorem attach_leaves_step (fuel : nat) (native : bool) (pid : Z)
    (s s' : stepd K) (r : rc) (evs : list event) :
  proctrack_p_add P NO_VAL SLURM_ID_HASH fuel native pid s = Some (r, s', evs) ->
  step s' = step s /\ cont_id (step s') = cont_id (step s).
Proof.
  intros H.
  assert (Hk : keeps step (proctrack_p_add P NO_VAL SLURM_ID_HASH fuel native pid)).
  { unfold proctrack_p_add. destruct native; [| apply keeps_ret].
    apply keeps_bind; [apply try_again_keeps; reflexivity |].
    intros [r0 |]; [apply keeps_ret |].
    apply keeps_bind;
      [apply end_container_thread_keeps | intros _; apply stamp_keeps];
      reflexivity. }
  rewrite (Hk _ _ _ _ H). auto.
Qed.

(** C1, as the code has it.  Take a call of [proctrack_p_add] (native
    build, not forked, fuel for the two rounds of the loop) whose first
    [job_attachpid] fails.
    - With an [errno] other than [EINVAL] it returns [SLURM_ERROR] after
      that one attach call, with no detach.
    - With [EINVAL] and [pid] found in the step's container it returns
      [SLURM_SUCCESS] after that one attach call, with no detach.
    - With [EINVAL] and [pid] not found there it calls [job_detachpid]
      once.  If the detach fails it returns [SLURM_ERROR] and the attach
      is not retried.  If the detach succeeds the attach is retried once:
      a failed retry gives [SLURM_ERROR], and in every case the run makes
      two attach calls and one detach call in all. *)
Theorem attach_conflict_protocol (fuel : nat) (pid : Z) (s : stepd K)
    (k1 k2 k3 k4 : K) (j d a2 : Z) :
  (2 <= fuel)%nat ->
  proctrack_forked s = false ->
  let c := cont_id (step s) in
  let add := proctrack_p_add P NO_VAL SLURM_ID_HASH fuel true pid s in
  let member := j <> jid_fail /\ to_uint64 j = c in
  job_attachpid P pid c (kern s) = (jid_fail, k1) ->
  job_getjid P pid k1 = (j, k2) ->
  job_detachpid P pid k2 = (d, k3) ->
  job_attachpid P pid c k3 = (a2, k4) ->
  (errno P k1 <> EINVAL ->
     exists evs, add = Some (SLURM_ERROR, with_kern k1 s, evs)
       /\ calls is_attach evs = 1%nat /\ calls is_detach evs = 0%nat)
  /\ (errno P k1 = EINVAL -> member ->
        exists evs, add = Some (SLURM_SUCCESS, with_kern k2 s, evs)
          /\ calls is_attach evs = 1%nat /\ calls is_detach evs = 0%nat)
  /\ (errno P k1 = EINVAL -> ~ member -> d = jid_fail ->
        exists evs, add = Some (SLURM_ERROR, with_kern k3 s, evs)
          /\ calls is_attach evs = 1%nat /\ calls is_detach evs = 1%nat)
  /\ (errno P k1 = EINVAL -> ~ member -> d <> jid_fail -> a2 = jid_fail ->
        exists evs, add = Some (SLURM_ERROR, with_kern k4 s, evs)
          /\ calls is_attach evs = 2%nat /\ calls is_detach evs = 1%nat)
  /\ (errno P k1 = EINVAL -> ~ member -> d <> jid_fail -> a2 <> jid_fail ->
        forall r s' evs, add = Some (r, s', evs) ->
          calls is_attach evs = 2%nat /\ calls is_detach evs = 1%nat).
Proof.
  intros Hfuel Hf c add member H1 H2 H3 H4.
  destruct fuel as [| [| fuel]]; [lia | lia |].
  assert (Hadd : add = _) by exact (add_unrolled (S (S fuel)) pid s).
  rewrite (try_again_unrolled fuel pid s Hf) in Hadd. cbv zeta in Hadd.
  fold c in Hadd. rewrite H1, Z.eqb_refl in Hadd.
  assert (Hm : negb (j =? jid_fail) && (to_uint64 j =? c) = true <-> member).
  { unfold member. rewrite andb_true_iff, negb_true_iff, Z.eqb_neq, Z.eqb_eq.
    reflexivity. }
  split; [| split; [| split; [| split]]].
  - intros He. apply Z.eqb_neq in He. rewrite He in Hadd.
    eexists. split; [exact Hadd |]. split; reflexivity.
  - intros He Hmem. apply Z.eqb_eq in He. apply Hm in Hmem.
    rewrite He, H2, Hmem in Hadd.
    eexists. split; [exact Hadd |]. split; reflexivity.
  - intros He Hmem Hd. apply Z.eqb_eq in He, Hd.
    rewrite <- Hm in Hmem. apply not_true_is_false in Hmem.
    rewrite He, H2, Hmem, H3, Hd in Hadd.
    eexists. split; [exact Hadd |]. split; reflexivity.
  - intros He Hmem Hd Ha. apply Z.eqb_eq in He, Ha. apply Z.eqb_neq in Hd.
    rewrite <- Hm in Hmem. apply not_true_is_false in Hmem.
    rewrite He, H2, Hmem, H3, Hd, H4, Ha in Hadd.
    eexists. split; [exact Hadd |]. split; reflexivity.
  - intros He Hmem Hd Ha r s' evs Hr.
    apply Z.eqb_eq in He. apply Z.eqb_neq in Hd, Ha.
    rewrite <- Hm in Hmem. apply not_true_is_false in Hmem.
    rewrite He, H2, Hmem, H3, Hd, H4, Ha in Hadd.
    rewrite Hadd in Hr.
    destruct ((_end_container_thread ;;
               stamp_application P NO_VAL SLURM_ID_HASH (S (S fuel)) pid)
                (with_kern k4 s)) as [[[b s2] e2] |] eqn:Et; [| discriminate].
    inversion Hr; subst.
    destruct (tail_no_attach e2 (tail_emits _ _ _ _ _ _ Et)) as [Hna Hnd].
    unfold calls in *. cbn. rewrite Hna, Hnd. split; reflexivity.
Qed.

(** C3, as the code has it.  Take a call of [proctrack_p_add] (native
    build) that returns [SLURM_SUCCESS] while a worker is outstanding.
    Unless it returned on the already-a-member path, the worker has been
    retired before the return: the handle is zero, and the run holds the
    signal and the join of that worker, after the attach calls and before
    the stamping.  On the already-a-member path the handle is as it was
    and the run has no signal and no join. *)
Theorem attach_success_retires_worker (fuel : nat) (pid : Z)
    (s s' : stepd K) (evs : list event) :
  proctrack_p_add P NO_VAL SLURM_ID_HASH fuel true pid s
  = Some (SLURM_SUCCESS, s', evs) ->
  threadid s <> 0 ->
  if already_member P pid s then
    threadid s' = threadid s /\ calls is_retire evs = 0%nat
  else
    threadid s' = 0
    /\ exists pre post,
         evs = pre ++ retirement (threadid s) ++ post
         /\ forallb attach_event pre = true
         /\ forallb stamp_event post = true.
Proof.
  unfold proctrack_p_add. intros H Ht.
  apply bind_inv in H as (o & s1 & e1 & e2 & H1 & H2 & ->).
  pose proof (try_again_success_iff _ _ _ _ _ _ H1) as Hiff.
  pose proof (try_again_keeps threadid fuel pid ltac:(reflexivity) 0 _ _ _ _ H1)
    as Ht1.
  pose proof (try_again_emits fuel pid 0 _ _ _ _ H1) as He1.
  destruct o as [r |].
  - inversion H2; subst.
    rewrite (proj1 Hiff eq_refl). split; [exact Ht1 |].
    rewrite app_nil_r. apply (calls_none _ attach_event); [| exact He1].
    intros [] He; try reflexivity; discriminate He.
  - destruct (already_member P pid s);
      [destruct Hiff as [_ Hi]; discriminate (Hi eq_refl) |].
    apply bind_inv in H2 as ([] & s2 & e3 & e4 & H3 & H4 & ->).
    rewrite end_container_thread_pending in H3 by congruence.
    inversion H3; subst.
    split.
    + rewrite (stamp_keeps threadid fuel pid ltac:(reflexivity) _ _ _ _ H4).
      reflexivity.
    + exists e1, e4. rewrite Ht1. split; [reflexivity |].
      split; [exact He1 | exact (stamp_emits _ _ _ _ _ _ H4)].
Qed.

End Properties.

(** ** The theorems at work on the scripted platform *)

Section Runs.

Import Mock.

(** C2 at work: a step that has container 5. *)
Lemma create_existing_container_is_noop_run :
  cont_id (step (start 5 0 false [])) <> 0
  /\ exists evs,
       proctrack_p_create plat true (start 5 0 false [])
       = Some (SLURM_SUCCESS, start 5 0 false [], evs)
       /\ forallb is_log evs = true
       /\ In (Log Error "proctrack_p_create: already have a cont_id" []) evs
       /\ (proctrack_p_create plat true ;; proctrack_p_create plat true)
            (start 5 0 false [])
          = Some (SLURM_SUCCESS, start 5 0 false [], evs ++ evs).
Proof.
  split; [discriminate |].
  apply (create_existing_container_is_noop plat true (start 5 0 false [])).
  discriminate.
Defined.

(** C6 at work: worker 7 is outstanding. *)
Lemma wait_pending_or_platform_run :
  threadid (start 5 7 false [fails jid_fail EINVAL]) <> 0
  /\ proctrack_p_wait plat true 5 (start 5 7 false [fails jid_fail EINVAL])
     = Some (SLURM_SUCCESS, start 5 7 false [fails jid_fail EINVAL], []).
Proof.
  split; [discriminate |].
  apply (wait_pending_or_platform plat 5 (start 5 7 false [fails jid_fail EINVAL])).
  discriminate.
Defined.

(** C4 at work: worker 7 is outstanding and the signal is [SIGKILL]. *)
Lemma signal_pending_or_platform_run :
  threadid (start 5 7 false []) <> 0
  /\ SIGKILL = SIGKILL
  /\ exists evs,
       proctrack_p_signal plat true 5 SIGKILL (start 5 7 false [])
       = Some (SLURM_SUCCESS, with_threadid 0 (start 5 7 false []), evs)
       /\ evs = retirement 7 ++ timing false
       /\ calls is_kill evs = 0%nat.
Proof.
  split; [discriminate |]. split; [reflexivity |].
  apply (signal_pending_or_platform plat 5 SIGKILL (start 5 7 false []));
    [discriminate | reflexivity].
Defined.

(** C7 at work: a container of two pids, the library keeping to the
    buffer. *)
Lemma get_pids_count_then_list_run :
  let s := start 5 0 false [ok 2; stored [10; 11]] in
  0 < fst (job_getpidcnt plat 5 (kern s))
  /\ bufsize_of 2 <= sizeof_pid_t * (2 + 128)
  /\ exists r o evs,
       proctrack_p_get_pids plat true 5 (None, 0) s
       = Some ((r, o), with_kern (mk_kernel [] 0) s,
               Job_getpidcnt 5 :: Xmalloc (to_size_t (bufsize_of 2))
               :: Job_getpidlist 5 (bufsize_of 2) :: evs)
       /\ forallb (fun e => is_log e || match e with Xfree => true | _ => false end)
            evs = true
       /\ (2 = -1 -> 0 = ENODATA -> r = SLURM_SUCCESS /\ o = (None, 0))
       /\ (2 = -1 -> 0 <> ENODATA -> r = SLURM_ERROR /\ o = (None, 0))
       /\ (2 <> -1 ->
            r = SLURM_SUCCESS /\ o = (Some [10; 11], 2)
            /\ (sizeof_pid_t * 2 <= bufsize_of 2 -> 2 <= 2 + 128)).
Proof.
  intros s. split; [reflexivity |].
  apply (get_pids_count_then_list plat 5 (None, 0) s). reflexivity.
Defined.

(** C10 at work: a run that attaches at the first try. *)
Lemma attach_leaves_step_run :
  let s := start 5 7 false [ok 0; ok 0; ok 3; ok 1; ok 0] in
  let s' := with_threadid 0 (with_kern (mk_kernel [] 0) s) in
  let evs := Job_attachpid 100 5 :: retirement 7
             ++ [Job_setapid 100 42; Open_task_is_app 100; Write_one 3; Close 3] in
  add 1%nat true 100 s = Some (SLURM_SUCCESS, s', evs)
  /\ step s' = step s /\ cont_id (step s') = cont_id (step s).
Proof.
  intros s s' evs. split; [reflexivity |].
  apply (attach_leaves_step plat no_val id_hash 1 true 100 s s' SLURM_SUCCESS evs).
  reflexivity.
Defined.

(** C1 at work: the pid sits in container 6 while the step has container
    5; it is detached, and the retry fails again. *)
Lemma attach_conflict_protocol_run :
  let s := start 5 7 false
             [fails jid_fail EINVAL; ok 6; ok 6; fails jid_fail EINVAL] in
  (2 <= 2)%nat
  /\ proctrack_forked s = false
  /\ job_attachpid plat 100 5 (kern s)
     = (jid_fail, mk_kernel [ok 6; ok 6; fails jid_fail EINVAL] EINVAL)
  /\ errno plat (mk_kernel [ok 6; ok 6; fails jid_fail EINVAL] EINVAL) = EINVAL
  /\ ~ (6 <> jid_fail /\ to_uint64 6 = 5)
  /\ 6 <> jid_fail
  /\ exists evs,
       add 2%nat true 100 s
       = Some (SLURM_ERROR, with_kern (mk_kernel [] EINVAL) s, evs)
       /\ calls is_attach evs = 2%nat /\ calls is_detach evs = 1%nat.
Proof.
  intros s.
  assert (Hn : ~ (6 <> jid_fail /\ to_uint64 6 = 5))
    by (intros [_ H]; discriminate H).
  assert (Hd : 6 <> jid_fail) by discriminate.
  repeat (split; [first [reflexivity | lia | assumption] |]).
  apply (attach_conflict_protocol plat no_val id_hash 2 100 s
           (mk_kernel [ok 6; ok 6; fails jid_fail EINVAL] EINVAL)
           (mk_kernel [ok 6; fails jid_fail EINVAL] EINVAL)
           (mk_kernel [fails jid_fail EINVAL] EINVAL)
           (mk_kernel [] EINVAL) 6 6 jid_fail);
    first [reflexivity | lia | assumption].
Defined.

(** C3 at work: a run that attaches at the first try with worker 7
    outstanding. *)
Lemma attach_success_retires_worker_run :
  let s := start 5 7 false [ok 0; ok 0; ok 3; ok 1; ok 0] in
  let s' := with_threadid 0 (with_kern (mk_kernel [] 0) s) in
  let evs := Job_attachpid 100 5 :: retirement 7
             ++ [Job_setapid 100 42; Open_task_is_app 100; Write_one 3; Close 3] in
  add 1%nat true 100 s = Some (SLURM_SUCCESS, s', evs)
  /\ threadid s <> 0
  /\ threadid s' = 0
  /\ exists pre post,
       evs = pre ++ retirement (threadid s) ++ post
       /\ forallb attach_event pre = true
       /\ forallb stamp_event post = true.
Proof.
  intros s s' evs. split; [reflexivity |]. split; [discriminate |].
  apply (attach_success_retires_worker plat no_val id_hash 1 100 s s' evs);
    [reflexivity | discriminate].
Defined.

(** C1 as stated fails.  The first attach fails with [EINVAL] and the
    lookup finds pid 100 in container 6, not in the step's container 5;
    the detach then fails.  [proctrack_p_add] returns [SLURM_ERROR] after
    a single attach call: the attach is not retried. *)
Lemma attach_failed_detach_is_not_retried :
  let s := start 5 7 false [fails jid_fail EINVAL; ok 6; fails jid_fail 3] in
  proctrack_forked s = false
  /\ fst (job_attachpid plat 100 5 (kern s)) = jid_fail
  /\ errno plat (snd (job_attachpid plat 100 5 (kern s))) = EINVAL
  /\ proctrack_p_has_pid plat true 5 100
       (with_kern (snd (job_attachpid plat 100 5 (kern s))) s)
     = Some (false, with_kern (mk_kernel [fails jid_fail 3] EINVAL) s,
             [Job_getjid 100])
  /\ exists s' evs,
       add 2%nat true 100 s = Some (SLURM_ERROR, s', evs)
       /\ calls is_detach evs = 1%nat
       /\ calls is_attach evs = 1%nat
       /\ calls is_attach evs <> 2%nat.
Proof.
  intros s. repeat (split; [reflexivity |]).
  do 2 eexists. split; [reflexivity |].
  repeat split; try reflexivity. discriminate.
Qed.

(** C3 as stated fails.  Worker 7 is outstanding, the first attach fails
    with [EINVAL] and the lookup finds pid 100 in the step's container 5.
    [proctrack_p_add] returns [SLURM_SUCCESS] with the handle still 7 and
    neither signal nor join in the run. *)
Lemma attach_already_member_keeps_worker :
  let s := start 5 7 false [fails jid_fail EINVAL; ok 5] in
  threadid s <> 0
  /\ exists s' evs,
       add 2%nat true 100 s = Some (SLURM_SUCCESS, s', evs)
       /\ threadid s' = 7
       /\ threadid s' <> 0
       /\ calls is_retire evs = 0%nat.
Proof.
  intros s. split; [discriminate |].
  do 2 eexists. split; [reflexivity |].
  repeat split; try reflexivity. discriminate.
Qed.

End Runs.


(** ** More of the plugin *)

Lemma with_threadid_zero {K} (s : stepd K) :
  threadid s = 0 -> with_threadid 0 s = s.
Proof. destruct s; cbn; intros ->; reflexivity. Qed.

Lemma sync_run_app (h : held) (e1 e2 : list event) :
  sync_run h (e1 ++ e2)
  = match sync_run h e1 with Some h' => sync_run h' e2 | None => None end.
Proof.
  revert h. induction e1 as [| e e1 IH]; intros h; cbn; [reflexivity |].
  destruct (sync_step h e); [apply IH | reflexivity].
Qed.

Lemma sync_run_quiet (h : held) (evs : list event) :
  forallb quiet evs = true -> sync_run h evs = Some h.
Proof.
  induction evs as [| e evs IH]; cbn; [reflexivity |].
  intros H. apply andb_true_iff in H as [He Hr].
  assert (Hs : sync_step h e = Some h)
    by (destruct h, e; cbn in *; try reflexivity; discriminate He).
  rewrite Hs. exact (IH Hr).
Qed.

Lemma forallb_weaken (p q : event -> bool) (evs : list event) :
  (forall e, p e = true -> q e = true) ->
  forallb p evs = true -> forallb q evs = true.
Proof. intros Hpq H. rewrite forallb_forall in *. auto. Qed.

Lemma attach_event_quiet (e : event) : attach_event e = true -> quiet e = true.
Proof. destruct e; cbn; intros H; try reflexivity; discriminate H. Qed.

Lemma stamp_event_quiet (e : event) : stamp_event e = true -> quiet e = true.
Proof. destruct e; cbn; intros H; try reflexivity; discriminate H. Qed.

Lemma timing_quiet (on : bool) : forallb quiet (timing on) = true.
Proof. destruct on; reflexivity. Qed.

Lemma retirement_disciplined (t : Z) :
  sync_run (false, false) (retirement t) = Some (false, false).
Proof. reflexivity. Qed.

Section Extras.

Context {K : Type} (P : platform K).
Variable NO_VAL : Z.
Variable SLURM_ID_HASH : Z -> Z -> Z.

(** [_end_container_thread] in one equation: the handle ends up zero. *)
Lemma end_container_thread_run (s : stepd K) :
  _end_container_thread s
  = Some (tt, with_threadid 0 s,
          if threadid s =? 0 then [] else retirement (threadid s)).
Proof.
  destruct (Z.eqb_spec (threadid s) 0) as [E | E].
  - rewrite end_container_thread_idle, with_threadid_zero by exact E.
    reflexivity.
  - apply end_container_thread_pending; exact E.
Qed.

(** With a container id already there, [proctrack_p_create] only logs. *)
Lemma create_existing_run (native : bool) (s : stepd K) :
  cont_id (step s) <> 0 ->
  proctrack_p_create P native s
  = Some (SLURM_SUCCESS, s,
          [Log Debug "%s loaded" [AStr plugin_name];
           Log Error "proctrack_p_create: already have a cont_id" []]
          ++ timing (time_cray s)).
Proof.
  intros H. unfold proctrack_p_create, init, libjob_handle; run.
  destruct (Z.eqb_spec (cont_id (step s)) 0) as [E | _]; [contradiction |].
  cbn. rewrite time_report_run. cbn. rewrite ?app_nil_r. reflexivity.
Qed.

(** X1.  Asked from the same state about a non-zero container id,
    [proctrack_p_has_pid] answers [true] exactly when [proctrack_p_find]
    gives that id; both make the same single lookup. *)
Theorem find_agrees_with_has_pid (cont pid : Z) (s : stepd K) :
  cont <> 0 ->
  exists b c k e1 e2,
    proctrack_p_has_pid P true cont pid s = Some (b, with_kern k s, e1)
    /\ proctrack_p_find P true pid s = Some (c, with_kern k s, e2)
    /\ calls is_getjid e1 = 1%nat
    /\ calls is_getjid e2 = 1%nat
    /\ (b = true <-> c = cont).
Proof.
  intros Hc. unfold proctrack_p_has_pid, proctrack_p_find; run.
  destruct (job_getjid P pid (kern s)) as [jid k]. cbn.
  destruct (Z.eqb_spec jid jid_fail) as [Ej | Ej]; cbn.
  - exists false, 0, k. do 2 eexists. repeat split; try reflexivity;
      intros; [discriminate | congruence].
  - rewrite time_report_run. cbn. rewrite ?app_nil_r.
    destruct (Z.eqb_spec (to_uint64 jid) cont) as [Ec | Ec]; cbn.
    + exists true, (to_uint64 jid), k. do 2 eexists.
      repeat split; intros; try reflexivity; try assumption;
        try (destruct (time_cray s); reflexivity).
    + exists false, (to_uint64 jid), k. do 2 eexists.
      repeat split; intros; try reflexivity; try discriminate;
        try contradiction; try (destruct (time_cray s); reflexivity).
Qed.

(** X2.  Retirement is idempotent: [_end_container_thread] always returns
    with the handle at zero, and a second call right after it does nothing
    at all. *)
Theorem retire_is_idempotent (s : stepd K) :
  exists evs,
    _end_container_thread s = Some (tt, with_threadid 0 s, evs)
    /\ (_end_container_thread ;; _end_container_thread) s
       = Some (tt, with_threadid 0 s, evs)
    /\ calls is_join evs = (if threadid s =? 0 then 0%nat else 1%nat).
Proof.
  eexists. split; [apply end_container_thread_run |]. split.
  - unfold bind. rewrite end_container_thread_run.
    rewrite end_container_thread_idle by reflexivity.
    rewrite app_nil_r. reflexivity.
  - destruct (threadid s =? 0); reflexivity.
Qed.

(** X3.  [fini] of the proctrack plugin returns [SLURM_SUCCESS] with the
    handle at zero in every state; a worker still outstanding is joined
    before the mutexes and the condition variable are destroyed, and the run
    keeps the locking discipline. *)
Theorem fini_joins_before_destroying (s : stepd K) :
  exists evs,
    fini s
    = Some (SLURM_SUCCESS, with_threadid 0 s,
            evs ++ [Mutex_destroy notify_mutex; Cond_destroy;
                    Mutex_destroy thread_mutex])
    /\ calls is_join evs = (if threadid s =? 0 then 0%nat else 1%nat)
    /\ disciplined (evs ++ [Mutex_destroy notify_mutex; Cond_destroy;
                            Mutex_destroy thread_mutex]).
Proof.
  exists (if threadid s =? 0 then [] else retirement (threadid s)).
  split; [| split].
  - unfold fini. unfold bind at 1. rewrite end_container_thread_run.
    run. reflexivity.
  - destruct (threadid s =? 0); reflexivity.
  - unfold disciplined. destruct (threadid s =? 0); reflexivity.
Qed.

(** With a handle recorded, a step without a container and not forked,
    [proctrack_p_create] does not return: it stays in its first
    [slurm_cond_wait], holding [thread_mutex]. *)
Lemma create_blocked (native : bool) (s : stepd K) :
  cont_id (step s) = 0 ->
  proctrack_forked s = false ->
  threadid s <> 0 ->
  proctrack_p_create P native s = None.
Proof.
  intros Hc Hf Ht.
  unfold proctrack_p_create, cond_wait_unsignalled, init, libjob_handle.
  run. rewrite Hc. cbn. rewrite Hf. cbn.
  apply Z.eqb_neq in Ht. rewrite Ht. reflexivity.
Qed.

(** The worker-thread path of [proctrack_p_create], in either build: the
    shape of the run. *)
Lemma create_worker_shape (native : bool) (s : stepd K) :
  cont_id (step s) = 0 ->
  proctrack_forked s = false ->
  threadid s = 0 ->
  exists s' worker post,
    proctrack_p_create P native s
    = Some (SLURM_SUCCESS, s',
            Log Debug "%s loaded" [AStr plugin_name]
            :: Mutex_lock thread_mutex
            :: Mutex_lock notify_mutex :: Thread_create :: Cond_wait
            :: map In_worker worker
            ++ Mutex_unlock notify_mutex :: Mutex_unlock thread_mutex :: post)
    /\ forallb quiet post = true
    /\ threadid s' = fst (pthread_create P (kern s))
    /\ proctrack_forked s' = false.
Proof.
  intros Hc Hf Ht.
  unfold proctrack_p_create, spawn_and_wait, _create_container_thread, init,
    libjob_handle.
  run. rewrite Hc. cbn. rewrite Hf. cbn. rewrite Ht. cbn.
  destruct (pthread_create P (kern s)) as [tid k1]; cbn.
  destruct native; cbn.
  all: try (destruct (job_create P (uid (step s)) k1) as [j k2]; cbn).
  all: rewrite ?Hc.
  all: repeat match goal with
       | |- context [?x =? jid_fail] =>
           destruct (x =? jid_fail) eqn:?; unfold log, emit; cbn
       end.
  all: rewrite time_report_run; cbn; rewrite ?app_nil_r.
  all: eexists _, _, _; split;
    [match goal with
     | |- Some (_, _, ?l) = _ =>
         match l with
         | context [In_worker ?a :: In_worker ?b :: In_worker ?c
                    :: In_worker ?d :: In_worker ?e :: ?r] =>
             change (In_worker a :: In_worker b :: In_worker c
                     :: In_worker d :: In_worker e :: r)
               with (map In_worker [a; b; c; d; e] ++ r)
         | context [In_worker ?a :: In_worker ?b :: In_worker ?c
                    :: In_worker ?d :: ?r] =>
             change (In_worker a :: In_worker b :: In_worker c
                     :: In_worker d :: r)
               with (map In_worker [a; b; c; d] ++ r)
         | context [In_worker ?a :: In_worker ?b :: In_worker ?c :: ?r] =>
             change (In_worker a :: In_worker b :: In_worker c :: r)
               with (map In_worker [a; b; c] ++ r)
         end
     end; reflexivity |].
  all: repeat split; try reflexivity; try exact Hf.
  all: destruct (time_cray s); reflexivity.
Qed.

Lemma in_worker_quiet (l : list event) : forallb quiet (map In_worker l) = true.
Proof. induction l; cbn; auto. Qed.

Lemma quiet_no_join (evs : list event) :
  forallb quiet evs = true -> calls is_join evs = 0%nat.
Proof.
  apply calls_none. intros [] He; try reflexivity; discriminate He.
Qed.

(** The direct path of [proctrack_p_create] (native build). *)
Lemma create_forked_run (s : stepd K) :
  cont_id (step s) = 0 ->
  proctrack_forked s = true ->
  proctrack_p_create P true s
  = Some (SLURM_SUCCESS,
          with_step
            (with_cont_id
               (to_uint64 (fst (job_create P (uid (step s)) (kern s))))
               (step s))
            (with_kern (snd (job_create P (uid (step s)) (kern s))) s),
          Log Debug "%s loaded" [AStr plugin_name]
          :: Job_create (uid (step s)) :: timing (time_cray s)).
Proof.
  intros Hc Hf. unfold proctrack_p_create, init, libjob_handle.
  run. rewrite Hc. cbn. rewrite Hf. cbn.
  destruct (job_create P (uid (step s)) (kern s)) as [j k]. cbn.
  rewrite time_report_run. cbn. rewrite ?app_nil_r. reflexivity.
Qed.

(** What every run of [proctrack_p_create] that returns has in common. *)
Lemma create_summary (native : bool) (s : stepd K) :
  (cont_id (step s) = 0 -> proctrack_forked s = false -> threadid s = 0) ->
  exists s' evs,
    proctrack_p_create P native s = Some (SLURM_SUCCESS, s', evs)
    /\ calls is_join evs = 0%nat
    /\ disciplined evs
    /\ proctrack_forked s' = proctrack_forked s.
Proof.
  intros Hfree.
  destruct (Z.eq_dec (cont_id (step s)) 0) as [Hc | Hc].
  - destruct (proctrack_forked s) eqn:Hf.
    + assert (Hq : exists s' evs,
                proctrack_p_create P native s = Some (SLURM_SUCCESS, s', evs)
                /\ forallb quiet evs = true
                /\ proctrack_forked s' = true).
      { destruct native.
        - rewrite create_forked_run by assumption.
          do 2 eexists. split; [reflexivity |]. split; [| exact Hf].
          cbn. apply timing_quiet.
        - unfold proctrack_p_create, init, libjob_handle.
          run. rewrite Hc. cbn. rewrite Hf. cbn.
          rewrite time_report_run. cbn. rewrite ?app_nil_r.
          do 2 eexists. split; [reflexivity |]. split; [| exact Hf].
          cbn. apply timing_quiet. }
      destruct Hq as (s' & evs & Hr & Hq & Hf').
      exists s', evs. split; [exact Hr |]. split; [| split].
      * apply quiet_no_join; exact Hq.
      * apply sync_run_quiet; exact Hq.
      * exact Hf'.
    + destruct (create_worker_shape native s Hc Hf (Hfree Hc eq_refl))
        as (s' & worker & post & Hr & Hq & _ & Hf').
      do 2 eexists. split; [exact Hr |]. split; [| split; [| exact Hf']].
      * unfold calls. cbn. rewrite !filter_app. cbn. rewrite !length_app.
        fold (calls is_join (map In_worker worker)).
        fold (calls is_join post).
        rewrite (quiet_no_join _ Hq), (quiet_no_join _ (in_worker_quiet worker)).
        reflexivity.
      * unfold disciplined. cbn.
        rewrite sync_run_app, (sync_run_quiet _ _ (in_worker_quiet worker)).
        cbn. apply sync_run_quiet; exact Hq.
  - rewrite create_existing_run by exact Hc.
    do 2 eexists. split; [reflexivity |].
    assert (Hq : forallb quiet
                   ([Log Debug "%s loaded" [AStr plugin_name];
                     Log Error "proctrack_p_create: already have a cont_id" []]
                    ++ timing (time_cray s)) = true)
      by (cbn; apply timing_quiet).
    split; [apply quiet_no_join; exact Hq |].
    split; [apply sync_run_quiet; exact Hq | reflexivity].
Qed.


(** X5.  On a forked step without a container (native build),
    [proctrack_p_create] calls [job_create] itself, once, and stores the
    answer as the container id; it creates no thread, takes no lock and
    leaves the worker handle as it was. *)
Theorem create_forked_is_direct (s : stepd K) :
  cont_id (step s) = 0 ->
  proctrack_forked s = true ->
  exists s' evs,
    proctrack_p_create P true s = Some (SLURM_SUCCESS, s', evs)
    /\ cont_id (step s')
       = to_uint64 (fst (job_create P (uid (step s)) (kern s)))
    /\ threadid s' = threadid s
    /\ forallb quiet evs = true
    /\ calls (fun e => match e with Job_create _ => true | _ => false end) evs
       = 1%nat.
Proof.
  intros Hc Hf. rewrite create_forked_run by assumption.
  do 2 eexists. split; [reflexivity |]. repeat split.
  - cbn. apply timing_quiet.
  - destruct (time_cray s); reflexivity.
Qed.

(** X7.  A creation that fails on the worker path (native build, no
    handle recorded) is kept for good: [proctrack_p_create] still returns
    [SLURM_SUCCESS], the step holds [(jid_t)-1] as its container id, the
    worker logs the failure and does not stay to wait, its handle is
    recorded all the same, and a second [proctrack_p_create] on that step
    only logs. *)
Theorem create_failure_is_kept (s : stepd K) :
  cont_id (step s) = 0 ->
  proctrack_forked s = false ->
  threadid s = 0 ->
  let tid := fst (pthread_create P (kern s)) in
  let k1 := snd (pthread_create P (kern s)) in
  to_uint64 (fst (job_create P (uid (step s)) k1)) = jid_fail ->
  exists s1 e1 e2,
    proctrack_p_create P true s = Some (SLURM_SUCCESS, s1, e1)
    /\ cont_id (step s1) = jid_fail
    /\ threadid s1 = tid
    /\ In (In_worker (Log Error "Failed to create job container: %m" [])) e1
    /\ ~ In (In_worker Cond_wait) e1
    /\ proctrack_p_create P true s1 = Some (SLURM_SUCCESS, s1, e2)
    /\ forallb is_log e2 = true.
Proof.
  intros Hc Hf Ht. cbv zeta. intros Hj.
  assert (Hr : exists e1,
    proctrack_p_create P true s
    = Some (SLURM_SUCCESS,
            with_step (with_cont_id jid_fail (step s))
              (with_kern
                 (set_errno P (errno P (snd (pthread_create P (kern s))))
                    (snd (job_create P (uid (step s))
                            (snd (pthread_create P (kern s))))))
                 (with_threadid (fst (pthread_create P (kern s))) s)),
            e1)
    /\ In (In_worker (Log Error "Failed to create job container: %m" [])) e1
    /\ ~ In (In_worker Cond_wait) e1).
  { unfold proctrack_p_create, spawn_and_wait, _create_container_thread, init,
      libjob_handle.
    run. rewrite Hc. cbn. rewrite Hf. cbn. rewrite Ht. cbn.
    destruct (pthread_create P (kern s)) as [tid k1]; cbn in *.
    destruct (job_create P (uid (step s)) k1) as [j k2]; cbn in *.
    rewrite Hj, Z.eqb_refl; unfold log, emit; cbn.
    rewrite ?Z.eqb_refl; cbn.
    rewrite time_report_run; cbn; rewrite ?app_nil_r.
    eexists; split; [reflexivity |]; split.
    all: cbn; try (repeat (first [left; reflexivity | right]); fail).
    intros H; repeat (destruct H as [H | H]; [discriminate H |]).
    destruct (time_cray s); cbn in H;
      repeat (destruct H as [H | H]; [discriminate H |]); exact H. }
  destruct Hr as (e1 & Hr & Hin & Hnot).
  do 3 eexists. split; [exact Hr |]. repeat split; try assumption.
  - rewrite create_existing_run by (cbn; discriminate). reflexivity.
  - cbn. apply forallb_is_log_timing.
Qed.

(** *** The retry loop around [close] and the fuel *)

Lemma close_S (fuel : nat) (fd : Z) :
  temp_failure_retry_close P (S fuel) fd
  = (r <- sys (Close fd) (close P fd) ;;
     e <- get (fun s => errno P (kern s)) ;;
     if (r =? -1) && (e =? EINTR) then temp_failure_retry_close P fuel fd
     else ret r).
Proof. reflexivity. Qed.

(** X12.  When [TEMP_FAILURE_RETRY(close(fd))] returns, the value it gives
    is not a failure with [EINTR]; the loop has called [close] on that
    descriptor at least once and nothing else, and it has changed nothing
    but the kernel. *)
Theorem close_retries_only_on_eintr (fuel : nat) (fd : Z) (s s' : stepd K)
    (r : Z) (evs : list event) :
  temp_failure_retry_close P fuel fd s = Some (r, s', evs) ->
  (r = -1 -> errno P (kern s') <> EINTR)
  /\ s' = with_kern (kern s') s
  /\ exists n, (n < fuel)%nat /\ evs = repeat (Close fd) (S n).
Proof.
  revert s evs. induction fuel as [| fuel IH]; intros s evs; [discriminate |].
  rewrite close_S. run.
  destruct (close P fd (kern s)) as [r0 k]. cbn.
  destruct ((r0 =? -1) && (errno P k =? EINTR)) eqn:Eb.
  - destruct (temp_failure_retry_close P fuel fd (with_kern k s))
      as [[[r1 s1] e1] |] eqn:Er; [| discriminate].
    intros H; inversion H; subst.
    destruct (IH _ _ Er) as (H1 & H2 & n & Hn & He).
    split; [exact H1 |]. split.
    + rewrite H2 at 1. reflexivity.
    + exists (S n). split; [lia |]. rewrite He. reflexivity.
  - intros H; inversion H; subst. cbn. split; [| split].
    + intros ->. rewrite Z.eqb_refl in Eb. cbn in Eb.
      apply Z.eqb_neq; exact Eb.
    + reflexivity.
    + exists 0%nat. split; [lia | reflexivity].
Qed.

(** The events of the retry loop are calls of [close] on its descriptor. *)
Lemma close_events (fuel : nat) (fd : Z) (s s' : stepd K) (r : Z)
    (evs : list event) :
  temp_failure_retry_close P fuel fd s = Some (r, s', evs) ->
  exists n, evs = repeat (Close fd) (S n).
Proof.
  revert s evs. induction fuel as [| fuel IH]; intros s evs; [discriminate |].
  rewrite close_S. run.
  destruct (close P fd (kern s)) as [r0 k]. cbn.
  destruct ((r0 =? -1) && (errno P k =? EINTR)).
  - destruct (temp_failure_retry_close P fuel fd (with_kern k s))
      as [[[r1 s1] e1] |] eqn:Er; [| discriminate].
    intros H; inversion H; subst.
    destruct (IH _ _ Er) as (n & ->). exists (S n). reflexivity.
  - intros H; inversion H; subst. exists 0%nat. reflexivity.
Qed.

(** A [close] that is never interrupted is called once. *)
Lemma close_uninterrupted (fuel : nat) (fd : Z) (s : stepd K) :
  (forall fd k, fst (close P fd k) = -1 -> errno P (snd (close P fd k)) <> EINTR) ->
  temp_failure_retry_close P (S fuel) fd s
  = Some (fst (close P fd (kern s)),
          with_kern (snd (close P fd (kern s))) s, [Close fd]).
Proof.
  intros Hn. rewrite close_S. run.
  specialize (Hn fd (kern s)).
  destruct (close P fd (kern s)) as [r0 k]. cbn in *.
  destruct (Z.eqb_spec r0 (-1)) as [E | E]; cbn; [| reflexivity].
  apply Hn in E. apply Z.eqb_neq in E. rewrite E. reflexivity.
Qed.

Lemma extends_refl {A} (m : M K A) : extends m m.
Proof. intros s x H; exact H. Qed.

Lemma extends_diverge {A} (m : M K A) : extends diverge m.
Proof. intros s x H; discriminate H. Qed.

Lemma extends_bind {A B} (m m' : M K A) (f f' : A -> M K B) :
  extends m m' -> (forall a, extends (f a) (f' a)) ->
  extends (bind m f) (bind m' f').
Proof.
  intros Hm Hf s [[b s2] evs] H.
  apply bind_inv in H as (a & s1 & e1 & e2 & H1 & H2 & ->).
  unfold bind. rewrite (Hm _ _ H1), (Hf _ _ _ H2). reflexivity.
Qed.

Lemma close_extends (fuel : nat) (fd : Z) :
  extends (temp_failure_retry_close P fuel fd)
          (temp_failure_retry_close P (S fuel) fd).
Proof.
  induction fuel as [| fuel IH]; [apply extends_diverge |].
  rewrite (close_S (S fuel)). rewrite (close_S fuel) at 1.
  apply extends_bind; [apply extends_refl | intros r].
  apply extends_bind; [apply extends_refl | intros e].
  destruct ((r =? -1) && (e =? EINTR)); [exact IH | apply extends_refl].
Qed.

Lemma try_again_S (fuel : nat) (pid count : Z) :
  try_again P (S fuel) pid count
  = (forked <- get proctrack_forked ;;
     if forked then ret Attached
     else
       c <- get (fun s => cont_id (step s)) ;;
       r <- sys (Job_attachpid pid c) (job_attachpid P pid c) ;;
       if r =? jid_fail then
         e <- get (fun s => errno P (kern s)) ;;
         if (e =? EINVAL) && (count <? 1) then
           h <- proctrack_p_has_pid P true c pid ;;
           if h then
             log Debug
               "%s: Trying to add pid (%d) again to the same container, ignoring."
               [AStr "proctrack_p_add"; AInt pid] ;;
             ret (Returned SLURM_SUCCESS)
           else
             jid <- sys (Job_detachpid pid) (job_detachpid P pid) ;;
             if negb (jid =? jid_fail) then
               log Error
                 "%s: Pid %d was attached to container %lu incorrectly.  Moving to correct (%lu)."
                 [AStr "proctrack_p_add"; AInt pid; AInt jid; AInt c] ;;
               try_again P fuel pid (count + 1)
             else
               log Error "%s: Couldn't detach pid %d from container: %m"
                 [AStr "proctrack_p_add"; AInt pid] ;;
               ret (Returned SLURM_ERROR)
         else
           log Error "Failed to attach pid %d to job container: %m"
             [AInt pid] ;;
           ret (Returned SLURM_ERROR)
       else ret Attached).
Proof. reflexivity. Qed.

Ltac mono :=
  repeat first
    [ assumption
    | match goal with H : forall _, extends _ _ |- _ => apply H end
    | apply extends_refl
    | apply extends_bind; [| intros]
    | match goal with
      | |- extends (if ?b then _ else _) (if ?b then _ else _) => destruct b
      | |- extends (match ?o with _ => _ end) (match ?o with _ => _ end) =>
          destruct o
      end ].

Lemma try_again_extends (fuel : nat) (pid : Z) :
  forall count,
    extends (try_again P fuel pid count) (try_again P (S fuel) pid count).
Proof.
  induction fuel as [| fuel IH]; intros count; [apply extends_diverge |].
  rewrite (try_again_S (S fuel)). rewrite (try_again_S fuel) at 1.
  mono.
Qed.

(** Fuel only bounds the loops: a run of [proctrack_p_add] that returns
    with some fuel returns the same result, state and events with any larger
    fuel. *)
Theorem add_fuel_monotone (fuel extra : nat) (native : bool) (pid : Z)
    (s : stepd K) (x : rc * stepd K * list event) :
  proctrack_p_add P NO_VAL SLURM_ID_HASH fuel native pid s = Some x ->
  proctrack_p_add P NO_VAL SLURM_ID_HASH (fuel + extra) native pid s = Some x.
Proof.
  assert (Hone : forall n,
    extends (proctrack_p_add P NO_VAL SLURM_ID_HASH n native pid)
            (proctrack_p_add P NO_VAL SLURM_ID_HASH (S n) native pid)).
  { intros n. unfold proctrack_p_add, stamp_application.
    pose proof (try_again_extends n pid) as Ht.
    pose proof (close_extends n) as Hc.
    destruct native; [| apply extends_refl].
    apply extends_bind; [apply Ht | intros o].
    destruct o; [apply extends_refl |].
    mono. }
  intros H. induction extra as [| extra IH].
  - rewrite Nat.add_0_r. exact H.
  - rewrite Nat.add_succ_r. apply Hone. exact IH.
Qed.

(** *** More of [proctrack_p_add] *)

Lemma try_again_forked (fuel : nat) (pid count : Z) (s : stepd K) :
  proctrack_forked s = true ->
  try_again P (S fuel) pid count s = Some (Attached, s, []).
Proof. intros Hf. rewrite try_again_S. run. rewrite Hf. reflexivity. Qed.

Lemma try_again_attached (fuel : nat) (pid count : Z) (s : stepd K) :
  proctrack_forked s = false ->
  fst (job_attachpid P pid (cont_id (step s)) (kern s)) <> jid_fail ->
  try_again P (S fuel) pid count s
  = Some (Attached,
          with_kern (snd (job_attachpid P pid (cont_id (step s)) (kern s))) s,
          [Job_attachpid pid (cont_id (step s))]).
Proof.
  intros Hf Ha. rewrite try_again_S. run. rewrite Hf. cbn.
  destruct (job_attachpid P pid (cont_id (step s)) (kern s)) as [a k].
  cbn in *. apply Z.eqb_neq in Ha. rewrite Ha. reflexivity.
Qed.

(** The application id [proctrack_p_add] hands to [job_setapid]. *)
Lemma stamp_leaves (fuel : nat) (pid : Z) (s s' : stepd K) (r : rc)
    (evs : list event) :
  stamp_application P NO_VAL SLURM_ID_HASH fuel pid s = Some (r, s', evs) ->
  let het := het_job_id (step s) in
  let sid := step_id (step s) in
  let apid :=
    SLURM_ID_HASH
      (if negb (het =? 0) && negb (het =? NO_VAL) then het else StepId.job_id sid)
      (StepId.step_id sid) in
  (r = SLURM_ERROR
   /\ evs = [Job_setapid pid apid;
             Log Error "Failed to set pid %d apid: %m" [AInt pid]])
  \/ (r = SLURM_ERROR
      /\ evs = [Job_setapid pid apid; Open_task_is_app pid;
                Log Error "Failed to open %s: %m" [AFname pid]])
  \/ (exists fd n,
        r = SLURM_ERROR
        /\ evs = [Job_setapid pid apid; Open_task_is_app pid; Write_one fd;
                  Log Error "Failed to write to %s: %m" [AFname pid]]
                 ++ repeat (Close fd) (S n))
  \/ (exists fd n b,
        r = SLURM_SUCCESS
        /\ evs = [Job_setapid pid apid; Open_task_is_app pid; Write_one fd]
                 ++ repeat (Close fd) (S n) ++ timing b).
Proof.
  cbv zeta. unfold stamp_application. run.
  destruct (job_setapid P pid _ (kern s)) as [r0 k0]. cbn.
  destruct (r0 =? -1); cbn.
  { intros H; inversion H; subst. left. split; reflexivity. }
  destruct (open_task_is_app P pid k0) as [fd k1]. cbn.
  destruct (fd =? -1); cbn.
  { intros H; inversion H; subst. right; left. split; reflexivity. }
  destruct (write_one P fd k1) as [w k2]. cbn.
  destruct (w <? 1); cbn.
  - destruct (temp_failure_retry_close P fuel fd _) as [[[rc0 sc] ec] |] eqn:Ec;
      [| discriminate].
    cbn. intros H; inversion H; subst.
    destruct (close_events _ _ _ _ _ _ Ec) as (n & ->).
    right; right; left. exists fd, n. rewrite app_nil_r. split; reflexivity.
  - destruct (temp_failure_retry_close P fuel fd _) as [[[rc0 sc] ec] |] eqn:Ec;
      [| discriminate].
    cbn. rewrite time_report_run. cbn.
    intros H; inversion H; subst.
    destruct (close_events _ _ _ _ _ _ Ec) as (n & ->).
    right; right; right. exists fd, n. eexists.
    rewrite app_nil_r. split; reflexivity.
Qed.

Lemma in_repeat_close (fd : Z) (n : nat) : In (Close fd) (repeat (Close fd) (S n)).
Proof. left; reflexivity. Qed.

Lemma write_not_in_timing (fd : Z) (b : bool) : ~ In (Write_one fd) (timing b).
Proof. destruct b; cbn; [intros [H | []]; discriminate H | intros []]. Qed.

Lemma stamp_closes (fuel : nat) (pid : Z) (s s' : stepd K) (r : rc)
    (evs : list event) :
  stamp_application P NO_VAL SLURM_ID_HASH fuel pid s = Some (r, s', evs) ->
  forall fd, In (Write_one fd) evs -> In (Close fd) evs.
Proof.
  intros H fd0 Hin.
  destruct (stamp_leaves _ _ _ _ _ _ H)
    as [[_ ->] | [[_ ->] | [(fd & n & _ & ->) | (fd & n & b & _ & ->)]]].
  - cbn in Hin. destruct Hin as [Hi | [Hi | []]]; discriminate Hi.
  - cbn in Hin. destruct Hin as [Hi | [Hi | [Hi | []]]]; discriminate Hi.
  - apply in_app_or in Hin as [Hin | Hin].
    + cbn in Hin.
      destruct Hin as [Hi | [Hi | [Hi | [Hi | []]]]]; try discriminate Hi.
      inversion Hi; subst. apply in_or_app; right. apply in_repeat_close.
    + apply repeat_spec in Hin. discriminate Hin.
  - apply in_app_or in Hin as [Hin | Hin].
    + cbn in Hin. destruct Hin as [Hi | [Hi | [Hi | []]]]; try discriminate Hi.
      inversion Hi; subst.
      apply in_or_app; right. apply in_or_app; left. apply in_repeat_close.
    + apply in_app_or in Hin as [Hin | Hin].
      * apply repeat_spec in Hin. discriminate Hin.
      * exfalso. exact (write_not_in_timing _ _ Hin).
Qed.

Lemma in_forallb (p : event -> bool) (e : event) (evs : list event) :
  forallb p evs = true -> In e evs -> p e = true.
Proof. intros H. rewrite forallb_forall in H. apply H. Qed.

(** X9.  Whenever [proctrack_p_add] returns, with success or with an
    error, every descriptor it wrote to has been closed in the same run: the
    failed write closes before it reports. *)
Theorem add_closes_what_it_writes (fuel : nat) (pid : Z) (s s' : stepd K)
    (r : rc) (evs : list event) :
  proctrack_p_add P NO_VAL SLURM_ID_HASH fuel true pid s = Some (r, s', evs) ->
  forall fd, In (Write_one fd) evs -> In (Close fd) evs.
Proof.
  unfold proctrack_p_add. intros H fd Hin.
  apply bind_inv in H as (o & s1 & e1 & e2 & H1 & H2 & ->).
  pose proof (try_again_emits P fuel pid 0 _ _ _ _ H1) as He1.
  apply in_app_or in Hin as [Hin | Hin].
  { apply (in_forallb _ _ _ He1) in Hin. discriminate Hin. }
  apply in_or_app; right.
  destruct o as [r0 |].
  - inversion H2; subst. destruct Hin.
  - apply bind_inv in H2 as ([] & s2 & e3 & e4 & H3 & H4 & ->).
    pose proof (end_container_thread_emits _ _ _ _ H3) as He3.
    apply in_app_or in Hin as [Hin | Hin].
    { apply (in_forallb _ _ _ He3) in Hin. discriminate Hin. }
    apply in_or_app; right. exact (stamp_closes _ _ _ _ _ _ H4 fd Hin).
Qed.

(** X8.  On a forked step [proctrack_p_add] (native build) makes no
    attach, detach or lookup call at all; whenever it returns, the worker
    handle is zero. *)
Theorem add_forked_skips_attach (fuel : nat) (pid : Z) (s s' : stepd K)
    (r : rc) (evs : list event) :
  proctrack_forked s = true ->
  proctrack_p_add P NO_VAL SLURM_ID_HASH fuel true pid s = Some (r, s', evs) ->
  calls is_attach evs = 0%nat
  /\ calls is_detach evs = 0%nat
  /\ calls is_getjid evs = 0%nat
  /\ threadid s' = 0.
Proof.
  intros Hf. rewrite add_unrolled. destruct fuel as [| fuel]; [discriminate |].
  rewrite try_again_forked by exact Hf.
  destruct ((_end_container_thread ;;
             stamp_application P NO_VAL SLURM_ID_HASH (S fuel) pid) s)
    as [[[b s2] e2] |] eqn:Et; [| discriminate].
  intros H; inversion H; subst. cbn [app].
  pose proof (tail_emits P NO_VAL SLURM_ID_HASH _ _ _ _ _ _ Et) as He.
  destruct (tail_no_attach _ He) as [Ha Hd].
  split; [exact Ha | split; [exact Hd | split]].
  - apply (calls_none _ tail_event); [| exact He].
    intros [] Hq; try reflexivity; discriminate Hq.
  - apply bind_inv in Et as ([] & s3 & e3 & e4 & H3 & H4 & _).
    rewrite end_container_thread_run in H3. inversion H3; subst.
    rewrite (stamp_keeps P NO_VAL SLURM_ID_HASH threadid _ _ ltac:(reflexivity) _ _ _ _ H4).
    reflexivity.
Qed.

(** X10.  A [proctrack_p_add] that returns [SLURM_SUCCESS] other than on
    the already-a-member path has stamped and marked the process: the run
    has [job_setapid] with the hash of the job id and the step id, the
    heterogeneous job id taking the job id's place when it is neither zero
    nor [NO_VAL], then the open of the control file, a write and the close
    of the descriptor written. *)
Theorem add_success_has_stamped (fuel : nat) (pid : Z) (s s' : stepd K)
    (evs : list event) :
  proctrack_p_add P NO_VAL SLURM_ID_HASH fuel true pid s
  = Some (SLURM_SUCCESS, s', evs) ->
  already_member P pid s = false ->
  let het := het_job_id (step s) in
  let job := StepId.job_id (step_id (step s)) in
  let stp := StepId.step_id (step_id (step s)) in
  (het = 0 \/ het = NO_VAL -> In (Job_setapid pid (SLURM_ID_HASH job stp)) evs)
  /\ (het <> 0 -> het <> NO_VAL ->
      In (Job_setapid pid (SLURM_ID_HASH het stp)) evs)
  /\ In (Open_task_is_app pid) evs
  /\ exists fd, In (Write_one fd) evs /\ In (Close fd) evs.
Proof.
  unfold proctrack_p_add. intros H Hm. cbv zeta.
  apply bind_inv in H as (o & s1 & e1 & e2 & H1 & H2 & ->).
  pose proof (try_again_success_iff P _ _ _ _ _ _ H1) as Hiff.
  pose proof (try_again_keeps P step fuel pid ltac:(reflexivity) 0 _ _ _ _ H1)
    as Hs1.
  destruct o as [r0 |].
  { inversion H2; subst. rewrite (proj1 Hiff eq_refl) in Hm. discriminate Hm. }
  apply bind_inv in H2 as ([] & s2 & e3 & e4 & H3 & H4 & ->).
  pose proof (end_container_thread_keeps step ltac:(reflexivity) _ _ _ _ H3)
    as Hs2.
  destruct (stamp_leaves _ _ _ _ _ _ H4)
    as [[Hr _] | [[Hr _] | [(fd & n & Hr & _) | (fd & n & b & _ & ->)]]];
    try discriminate Hr.
  rewrite Hs2, Hs1.
  assert (Hin : forall e,
    In e [Job_setapid pid
            (SLURM_ID_HASH
               (if negb (het_job_id (step s) =? 0)
                   && negb (het_job_id (step s) =? NO_VAL)
                then het_job_id (step s)
                else StepId.job_id (step_id (step s)))
               (StepId.step_id (step_id (step s))));
          Open_task_is_app pid; Write_one fd] ->
    In e (e1 ++ e3 ++ ([Job_setapid pid
            (SLURM_ID_HASH
               (if negb (het_job_id (step s) =? 0)
                   && negb (het_job_id (step s) =? NO_VAL)
                then het_job_id (step s)
                else StepId.job_id (step_id (step s)))
               (StepId.step_id (step_id (step s))));
          Open_task_is_app pid; Write_one fd]
          ++ repeat (Close fd) (S n) ++ timing b)))
    by (intros e He; apply in_or_app; right; apply in_or_app; right;
        apply in_or_app; left; exact He).
  split; [| split; [| split]].
  - intros [E | E]; apply Hin; left; rewrite E;
      [| destruct (negb (NO_VAL =? 0))]; rewrite ?Z.eqb_refl; reflexivity.
  - intros E0 E1. apply Hin; left.
    apply Z.eqb_neq in E0, E1. rewrite E0, E1. reflexivity.
  - apply Hin. right; left; reflexivity.
  - exists fd. split; [apply Hin; right; right; left; reflexivity |].
    apply in_or_app; right; apply in_or_app; right; apply in_or_app; right.
    apply in_or_app; left. apply in_repeat_close.
Qed.

(** X11.  An error after the attach is not rolled back.  When the first
    [job_attachpid] succeeds and the [job_setapid] call that follows it
    fails, [proctrack_p_add] returns [SLURM_ERROR] with the worker already
    retired and the process still attached: the run has no detach and never
    opens the control file. *)
Theorem add_setapid_failure_keeps_attachment (fuel : nat) (pid : Z)
    (s : stepd K) :
  (1 <= fuel)%nat ->
  proctrack_forked s = false ->
  fst (job_attachpid P pid (cont_id (step s)) (kern s)) <> jid_fail ->
  let k1 := snd (job_attachpid P pid (cont_id (step s)) (kern s)) in
  let apid := apid_of NO_VAL SLURM_ID_HASH (step s) in
  fst (job_setapid P pid apid k1) = -1 ->
  proctrack_p_add P NO_VAL SLURM_ID_HASH fuel true pid s
  = Some (SLURM_ERROR,
          with_threadid 0 (with_kern (snd (job_setapid P pid apid k1)) s),
          Job_attachpid pid (cont_id (step s))
          :: (if threadid s =? 0 then [] else retirement (threadid s))
          ++ [Job_setapid pid apid;
              Log Error "Failed to set pid %d apid: %m" [AInt pid]]).
Proof.
  intros Hfuel Hf Ha k1 apid Hset. destruct fuel as [| fuel]; [lia |].
  rewrite add_unrolled, try_again_attached by assumption.
  unfold bind. rewrite end_container_thread_run.
  unfold stamp_application. run.
  fold k1. change (job_setapid P pid _ k1) with (job_setapid P pid apid k1).
  destruct (job_setapid P pid apid k1) as [r0 k0].
  cbn in *. subst r0. cbn. reflexivity.
Qed.

Lemma try_again_total (fuel : nat) (pid : Z) (s : stepd K) :
  (2 <= fuel)%nat ->
  exists o s1 e1,
    try_again P fuel pid 0 s = Some (o, s1, e1)
    /\ (calls is_attach e1 <= 2)%nat
    /\ (calls is_detach e1 <= 1)%nat
    /\ (calls is_getjid e1 <= 1)%nat.
Proof.
  intros Hfuel. destruct fuel as [| [| fuel]]; [lia | lia |].
  destruct (proctrack_forked s) eqn:Hf.
  - rewrite try_again_forked by exact Hf.
    do 3 eexists. split; [reflexivity |]. cbn. lia.
  - rewrite (try_again_unrolled P fuel pid s Hf). cbv zeta.
    destruct (job_attachpid P pid (cont_id (step s)) (kern s)) as [a1 k1].
    destruct (a1 =? jid_fail); [| do 3 eexists; split; [reflexivity | cbn; lia]].
    destruct (errno P k1 =? EINVAL);
      [| do 3 eexists; split; [reflexivity | cbn; lia]].
    destruct (job_getjid P pid k1) as [j k2].
    destruct (negb (j =? jid_fail) && (to_uint64 j =? cont_id (step s)));
      [do 3 eexists; split; [reflexivity | cbn; lia] |].
    destruct (job_detachpid P pid k2) as [d k3].
    destruct (d =? jid_fail); [do 3 eexists; split; [reflexivity | cbn; lia] |].
    destruct (job_attachpid P pid (cont_id (step s)) k3) as [a2 k4].
    destruct (a2 =? jid_fail); do 3 eexists; (split; [reflexivity | cbn; lia]).
Qed.

Lemma stamp_total (fuel : nat) (pid : Z) (s : stepd K) :
  (forall fd k, fst (close P fd k) = -1 -> errno P (snd (close P fd k)) <> EINTR) ->
  exists r s' evs,
    stamp_application P NO_VAL SLURM_ID_HASH (S fuel) pid s = Some (r, s', evs).
Proof.
  intros Hn. remember (S fuel) as f1 eqn:Ef. unfold stamp_application. run.
  destruct (job_setapid P pid _ (kern s)) as [r0 k0]. cbn.
  destruct (r0 =? -1); cbn; [do 3 eexists; reflexivity |].
  destruct (open_task_is_app P pid k0) as [fd k1]. cbn.
  destruct (fd =? -1); cbn; [do 3 eexists; reflexivity |].
  destruct (write_one P fd k1) as [w k2]. cbn.
  destruct (w <? 1); cbn; rewrite Ef, (close_uninterrupted fuel fd _ Hn); cbn;
    rewrite ?time_report_run; cbn; do 3 eexists; reflexivity.
Qed.

(** X13.  The attach loop is bounded and only [close] can hold
    [proctrack_p_add] up.  On a platform whose [close] never fails with
    [EINTR], [proctrack_p_add] returns with two units of fuel or more, and
    its run has at most two attach calls, one detach and one lookup. *)
Theorem add_returns_when_close_is_not_interrupted (fuel : nat) (pid : Z)
    (s : stepd K) :
  (forall fd k, fst (close P fd k) = -1 -> errno P (snd (close P fd k)) <> EINTR) ->
  (2 <= fuel)%nat ->
  exists r s' evs,
    proctrack_p_add P NO_VAL SLURM_ID_HASH fuel true pid s = Some (r, s', evs)
    /\ (calls is_attach evs <= 2)%nat
    /\ (calls is_detach evs <= 1)%nat
    /\ (calls is_getjid evs <= 1)%nat.
Proof.
  intros Hn Hfuel. rewrite add_unrolled.
  destruct (try_again_total fuel pid s Hfuel)
    as (o & s1 & e1 & -> & Ha & Hd & Hg).
  destruct o as [r0 |]; [do 3 eexists; split; [reflexivity | auto] |].
  destruct fuel as [| fuel]; [lia |].
  assert (Ht : exists b s2 e2,
    (_end_container_thread ;;
     stamp_application P NO_VAL SLURM_ID_HASH (S fuel) pid) s1
    = Some (b, s2, e2)).
  { unfold bind. rewrite end_container_thread_run.
    destruct (stamp_total fuel pid (with_threadid 0 s1) Hn)
      as (b & s2 & e2 & ->).
    do 3 eexists; reflexivity. }
  destruct Ht as (b & s2 & e2 & Ht). rewrite Ht.
  pose proof (tail_emits P NO_VAL SLURM_ID_HASH _ _ _ _ _ _ Ht) as He.
  destruct (tail_no_attach _ He) as [Ha2 Hd2].
  assert (Hg2 : calls is_getjid e2 = 0%nat).
  { apply (calls_none _ tail_event); [| exact He].
    intros [] Hq; try reflexivity; discriminate Hq. }
  do 3 eexists. split; [reflexivity |].
  unfold calls in *. rewrite !filter_app, !length_app. lia.
Qed.

(** *** The other entry points *)

(** X14.  The step record is written by [proctrack_p_create] alone: no
    other entry point, in either build, changes it. *)
Theorem step_written_only_by_create (fuel : nat) (native : bool)
    (id sig pid : Z) (out : pid_out) :
  keeps step (proctrack_p_add P NO_VAL SLURM_ID_HASH fuel native pid)
  /\ keeps step (proctrack_p_signal P native id sig)
  /\ keeps step (proctrack_p_destroy P native id)
  /\ keeps step (proctrack_p_wait P native id)
  /\ keeps step (proctrack_p_find P native pid)
  /\ keeps step (proctrack_p_has_pid P native id pid)
  /\ keeps step (proctrack_p_get_pids P native id out)
  /\ keeps step (fini (K := K)).
Proof.
  assert (He : keeps step (_end_container_thread (K := K)))
    by (apply end_container_thread_keeps; reflexivity).
  repeat split.
  - unfold proctrack_p_add. destruct native; [| apply keeps_ret].
    apply keeps_bind; [apply try_again_keeps; reflexivity |].
    intros [r0 |]; [apply keeps_ret |].
    apply keeps_bind; [exact He | intros _; apply stamp_keeps; reflexivity].
  - unfold proctrack_p_signal. frame.
  - unfold proctrack_p_destroy. frame.
  - unfold proctrack_p_wait. frame.
  - unfold proctrack_p_find. frame.
  - unfold proctrack_p_has_pid. frame.
  - unfold proctrack_p_get_pids. frame.
  - unfold fini. frame.
Qed.

(** X15.  The worker handle is cleared only by [proctrack_p_add],
    [proctrack_p_signal] and [fini], and these never set it to anything but
    zero; [proctrack_p_destroy], [proctrack_p_wait], [proctrack_p_find],
    [proctrack_p_has_pid] and [proctrack_p_get_pids] leave it as it is. *)
Theorem handle_cleared_only_by_retirement (fuel : nat) (native : bool)
    (id sig pid : Z) (out : pid_out) :
  keeps threadid (proctrack_p_destroy P native id)
  /\ keeps threadid (proctrack_p_wait P native id)
  /\ keeps threadid (proctrack_p_find P native pid)
  /\ keeps threadid (proctrack_p_has_pid P native id pid)
  /\ keeps threadid (proctrack_p_get_pids P native id out)
  /\ (forall s r s' evs,
        proctrack_p_add P NO_VAL SLURM_ID_HASH fuel native pid s
        = Some (r, s', evs) ->
        threadid s' = threadid s \/ threadid s' = 0)
  /\ (forall s r s' evs,
        proctrack_p_signal P native id sig s = Some (r, s', evs) ->
        threadid s' = threadid s \/ threadid s' = 0).
Proof.
  repeat split.
  - unfold proctrack_p_destroy. frame.
  - unfold proctrack_p_wait. frame.
  - unfold proctrack_p_find. frame.
  - unfold proctrack_p_has_pid. frame.
  - unfold proctrack_p_get_pids. frame.
  - unfold proctrack_p_add. intros s r s' evs H.
    destruct native; [| inversion H; auto].
    apply bind_inv in H as (o & s1 & e1 & e2 & H1 & H2 & _).
    pose proof (try_again_keeps P threadid fuel pid ltac:(reflexivity) 0 _ _ _ _ H1)
      as Ht1.
    destruct o as [r0 |]; [inversion H2; subst; auto |].
    apply bind_inv in H2 as ([] & s2 & e3 & e4 & H3 & H4 & _).
    rewrite end_container_thread_run in H3. inversion H3; subst.
    right.
    rewrite (stamp_keeps P NO_VAL SLURM_ID_HASH threadid _ _ ltac:(reflexivity)
               _ _ _ _ H4).
    reflexivity.
  - unfold proctrack_p_signal. intros s r s' evs.
    destruct native; [| intros H; inversion H; auto].
    run. destruct (threadid s =? 0) eqn:Et; cbn.
    + destruct (job_killjid P id sig (kern s)) as [r0 k]. cbn.
      destruct ((r0 <? 0) && negb (errno P k =? ENODATA)
                && negb (errno P k =? EBADF)); cbn;
        rewrite ?time_report_run; cbn; intros H; inversion H; auto.
    + destruct (sig =? SIGKILL); cbn.
      * rewrite end_container_thread_run, time_report_run. cbn.
        intros H; inversion H; auto.
      * rewrite time_report_run. cbn. intros H; inversion H; auto.
Qed.

(** X16.  [proctrack_p_wait] becomes a real wait only after the worker is
    gone.  With a worker outstanding (native build), [proctrack_p_signal]
    with [SIGKILL] followed by [proctrack_p_wait] retires the worker and
    then calls [job_waitjid], on a kernel no signal was sent to; the result
    is an error exactly when [job_waitjid] fails. *)
Theorem signal_kill_then_wait (id : Z) (s : stepd K) :
  threadid s <> 0 ->
  exists r,
    (proctrack_p_signal P true id SIGKILL ;; proctrack_p_wait P true id) s
    = Some (r, with_threadid 0 (with_kern (snd (job_waitjid P id (kern s))) s),
            retirement (threadid s) ++ timing (time_cray s) ++ [Job_waitjid id])
    /\ (r = SLURM_ERROR <-> fst (job_waitjid P id (kern s)) = jid_fail).
Proof.
  intros Ht. unfold proctrack_p_signal, proctrack_p_wait. run.
  apply Z.eqb_neq in Ht. rewrite Ht, Z.eqb_refl. cbn.
  apply Z.eqb_neq in Ht.
  rewrite (end_container_thread_pending s Ht), time_report_run. cbn.
  destruct (job_waitjid P id (kern s)) as [w k]. cbn.
  destruct (Z.eqb_spec w jid_fail); cbn; rewrite ?app_nil_r;
    eexists; (split; [reflexivity |]); split; intros; congruence.
Qed.

(** X17.  [proctrack_p_destroy] (native build) makes the same check as
    [proctrack_p_wait]: with a worker outstanding it leaves the kernel alone
    and only logs; with none it calls [job_waitjid] once on the container
    and drops the answer. *)
Theorem destroy_waits_only_without_worker (id : Z) (s : stepd K) :
  (threadid s <> 0 ->
     exists evs,
       proctrack_p_destroy P true id s = Some (SLURM_SUCCESS, s, evs)
       /\ forallb is_log evs = true)
  /\ (threadid s = 0 ->
        exists evs,
          proctrack_p_destroy P true id s
          = Some (SLURM_SUCCESS, with_kern (snd (job_waitjid P id (kern s))) s,
                  Log Debug "destroying 0x%08lx 0x%08lx" [AInt id; AInt 0]
                  :: Job_waitjid id :: evs)
          /\ forallb is_log evs = true).
Proof.
  unfold proctrack_p_destroy. run. split; intros Ht.
  - apply Z.eqb_neq in Ht. rewrite Ht. cbn. rewrite time_report_run. cbn.
    eexists. split; [reflexivity |]. cbn. rewrite app_nil_r.
    apply forallb_is_log_timing.
  - rewrite Ht. cbn. unfold sys. cbn.
    destruct (job_waitjid P id (kern s)) as [w k]. cbn.
    rewrite time_report_run. cbn. rewrite ?app_nil_r.
    eexists. split; [reflexivity |]. apply forallb_is_log_timing.
Qed.

(** X18.  The buffer of [proctrack_p_get_pids] (native build) is never
    lost: a run either allocates nothing and hands out a null list, or
    allocates once and then either frees the buffer and hands out a null
    list with count zero, or hands the buffer to the caller without freeing
    it.  An error result always comes with the null list and count zero. *)
Theorem get_pids_buffer_is_owned (cont : Z) (out : pid_out) (s s' : stepd K)
    (r : rc) (p : option (list Z)) (n : Z) (evs : list event) :
  proctrack_p_get_pids P true cont out s = Some ((r, (p, n)), s', evs) ->
  (calls is_xmalloc evs
   = calls is_xfree evs + match p with Some _ => 1 | None => 0 end)%nat
  /\ (calls is_xmalloc evs <= 1)%nat
  /\ (p = None -> n = 0)
  /\ (r = SLURM_ERROR -> p = None /\ n = 0).
Proof.
  unfold proctrack_p_get_pids. run.
  destruct (job_getpidcnt P cont (kern s)) as [cnt k1]. cbn.
  destruct (cnt >? 0); cbn.
  - destruct (job_getpidlist P cont (bufsize_of cnt) k1) as [[n0 l] k2]. cbn.
    destruct (n0 =? -1); cbn.
    + destruct (errno P k2 =? ENODATA); cbn;
        intros H; inversion H; subst; cbn;
        repeat split; intros; try reflexivity; try lia; discriminate.
    + rewrite time_report_run. cbn. intros H; inversion H; subst.
      assert (Hq : forall q, (forall e, is_log e = true -> q e = false) ->
                   calls q (timing (time_cray s) ++ []) = 0%nat)
        by (intros q Hq; destruct (time_cray s); cbn; unfold calls; cbn;
            rewrite ?Hq; reflexivity).
      unfold calls in *. cbn.
      rewrite (Hq is_xmalloc), (Hq is_xfree)
        by (intros [] He; try reflexivity; discriminate He).
      repeat split; intros; try reflexivity; try lia; discriminate.
  - rewrite time_report_run. cbn. intros H; inversion H; subst.
    assert (Hq : forall q, (forall e, is_log e = true -> q e = false) ->
                 calls q (timing (time_cray s) ++ []) = 0%nat)
      by (intros q Hq; destruct (time_cray s); cbn; unfold calls; cbn;
          rewrite ?Hq; reflexivity).
    unfold calls in *. cbn.
    rewrite (Hq is_xmalloc), (Hq is_xfree)
      by (intros [] He; try reflexivity; discriminate He).
    repeat split; intros; try reflexivity; try lia; discriminate.
Qed.

(** X19.  Every entry point keeps the locking discipline of the file: in
    each run that returns, [notify_mutex] is taken and given back inside
    [thread_mutex], the condition variable is used and a thread created only
    with [notify_mutex] held, a thread is joined with [thread_mutex] held
    and [notify_mutex] released, and no lock is held at the return. *)
Theorem entry_points_keep_lock_discipline (fuel : nat) (native : bool)
    (id sig pid : Z) (s s' : stepd K) (r : rc) (evs : list event) :
  proctrack_p_create P native s = Some (r, s', evs)
  \/ proctrack_p_add P NO_VAL SLURM_ID_HASH fuel native pid s = Some (r, s', evs)
  \/ proctrack_p_signal P native id sig s = Some (r, s', evs)
  \/ proctrack_p_destroy P native id s = Some (r, s', evs)
  \/ proctrack_p_wait P native id s = Some (r, s', evs)
  \/ fini s = Some (r, s', evs) ->
  disciplined evs.
Proof.
  intros [H | [H | [H | [H | [H | H]]]]].
  - destruct (create_summary native s) as (s1 & e1 & Hr & _ & Hd & _).
    + intros Hc Hf. destruct (Z.eq_dec (threadid s) 0) as [Ht | Ht];
        [exact Ht |].
      rewrite (create_blocked native s Hc Hf Ht) in H. discriminate H.
    + rewrite Hr in H. inversion H; subst. exact Hd.
  - unfold proctrack_p_add in H. destruct native;
      [| inversion H; reflexivity].
    apply bind_inv in H as (o & s1 & e1 & e2 & H1 & H2 & ->).
    pose proof (try_again_emits P fuel pid 0 _ _ _ _ H1) as He1.
    apply (forallb_weaken _ quiet _ attach_event_quiet) in He1.
    unfold disciplined. rewrite sync_run_app, (sync_run_quiet _ _ He1).
    destruct o as [r0 |]; [inversion H2; reflexivity |].
    apply bind_inv in H2 as ([] & s2 & e3 & e4 & H3 & H4 & ->).
    rewrite end_container_thread_run in H3. inversion H3; subst.
    pose proof (stamp_emits P NO_VAL SLURM_ID_HASH _ _ _ _ _ _ H4) as He4.
    apply (forallb_weaken _ quiet _ stamp_event_quiet) in He4.
    rewrite sync_run_app.
    destruct (threadid s1 =? 0); cbn; apply sync_run_quiet; exact He4.
  - unfold proctrack_p_signal in H. destruct native;
      [| inversion H; reflexivity].
    revert H. run. destruct (threadid s =? 0) eqn:Et; cbn.
    + destruct (job_killjid P id sig (kern s)) as [r0 k]. cbn.
      destruct ((r0 <? 0) && negb (errno P k =? ENODATA)
                && negb (errno P k =? EBADF)); cbn;
        rewrite ?time_report_run; cbn; intros H; inversion H; subst;
        [reflexivity |].
      unfold disciplined. cbn. apply sync_run_quiet.
      rewrite app_nil_r. apply timing_quiet.
    + destruct (sig =? SIGKILL); cbn.
      * rewrite end_container_thread_run, time_report_run. cbn. rewrite Et.
        intros H; inversion H; subst. unfold disciplined. cbn.
        apply sync_run_quiet. rewrite ?app_nil_r. apply timing_quiet.
      * rewrite time_report_run. cbn. intros H; inversion H; subst.
        unfold disciplined. cbn. apply sync_run_quiet.
        rewrite app_nil_r. apply timing_quiet.
  - assert (Hq : emits quiet (proctrack_p_destroy P native id))
      by (unfold proctrack_p_destroy; frame).
    apply sync_run_quiet. exact (Hq _ _ _ _ H).
  - assert (Hq : emits quiet (proctrack_p_wait P native id))
      by (unfold proctrack_p_wait; frame).
    apply sync_run_quiet. exact (Hq _ _ _ _ H).
  - revert H. unfold fini. unfold bind at 1. rewrite end_container_thread_run.
    run. intros H; inversion H; subst. unfold disciplined.
    destruct (threadid s =? 0); reflexivity.
Qed.

End Extras.

(** ** The scheduler plugin wrapper *)

Section Scheduler.

Context {K J : Type} (O : RL.outside K J).

(** X20.  The scheduler plugin never returns with its mutex held: every
    run of [init], the refusal included, and every run of [fini] locks the
    mutex once and unlocks it once, as its last step; and nothing but
    [init] on a zero handle creates a thread. *)
Theorem rl_mutex_is_released (w : RL.sched K) :
  (exists evs,
     snd (RL.init O w) = evs ++ [RL.Mutex_unlock]
     /\ List.length (filter RL.is_lock evs) = 1%nat
     /\ List.length (filter RL.is_unlock evs) = 0%nat
     /\ List.length (filter RL.is_create evs)
        = (if RL.rl_thread w =? 0 then 1%nat else 0%nat))
  /\ (exists evs,
        snd (RL.fini O w) = evs ++ [RL.Mutex_unlock]
        /\ List.length (filter RL.is_lock evs) = 1%nat
        /\ List.length (filter RL.is_unlock evs) = 0%nat
        /\ List.length (filter RL.is_create evs) = 0%nat).
Proof.
  unfold RL.init, RL.fini. destruct (RL.rl_thread w =? 0); cbn.
  - destruct (RL.pthread_create O (RL.kern w)) as [tid k]. cbn. split.
    + exists [RL.Log RL.Sched_verbose "RLScheduler plugin loaded";
              RL.Mutex_lock; RL.Thread_create].
      repeat split.
    + exists [RL.Mutex_lock]. repeat split.
  - split.
    + eexists [_; _; _]. repeat split.
    + eexists [_; _; _; _]. repeat split.
Qed.

(** X21.  Two [init] calls in a row start one thread: when the first finds
    no handle and the thread it creates has a non-zero handle, the second
    returns [SLURM_ERROR] and changes nothing. *)
Theorem rl_init_twice (w : RL.sched K) :
  RL.rl_thread w = 0 ->
  fst (RL.pthread_create O (RL.kern w)) <> 0 ->
  let '(r1, w1, e1) := RL.init O w in
  let '(r2, w2, e2) := RL.init O w1 in
  r1 = SLURM_SUCCESS /\ r2 = SLURM_ERROR /\ w2 = w1
  /\ List.length (filter RL.is_create (e1 ++ e2)) = 1%nat.
Proof.
  intros Hw Ht. unfold RL.init. rewrite Hw. cbn.
  destruct (RL.pthread_create O (RL.kern w)) as [tid k]. cbn in *.
  apply Z.eqb_neq in Ht. rewrite Ht. cbn. auto.
Qed.

(** X22.  [fini] of the scheduler plugin stops the agent and then joins
    exactly the recorded thread, clears the handle and gives the mutex
    back; with no handle it only takes and releases the mutex.  A second
    [fini] does nothing more, and an [init] after [fini] starts a thread
    again. *)
Theorem rl_fini_then_init (w : RL.sched K) :
  let (w1, e1) := RL.fini O w in
  RL.rl_thread w1 = 0
  /\ (RL.rl_thread w <> 0 ->
      exists l,
        e1 = RL.Mutex_lock :: l
             :: [RL.Stop_rl_agent; RL.Pthread_join (RL.rl_thread w);
                 RL.Mutex_unlock])
  /\ (RL.rl_thread w = 0 -> w1 = w /\ e1 = [RL.Mutex_lock; RL.Mutex_unlock])
  /\ RL.fini O w1 = (w1, [RL.Mutex_lock; RL.Mutex_unlock])
  /\ fst (fst (RL.init O w1)) = SLURM_SUCCESS.
Proof.
  unfold RL.fini, RL.init.
  destruct (Z.eqb_spec (RL.rl_thread w) 0) as [E | E]; cbn.
  - rewrite E. cbn.
    destruct (RL.pthread_create O (RL.kern w)) as [tid k].
    repeat split; try assumption; try reflexivity. intros; contradiction.
  - destruct (RL.pthread_create O _) as [tid k].
    repeat split; try reflexivity; try (intros; contradiction).
    intros _. eexists. reflexivity.
Qed.

End Scheduler.

(** ** More runs on the scripted platform *)

Section MoreRuns.

Import Mock.

(** X1 at work: the lookup finds container 5. *)
Lemma find_agrees_with_has_pid_run :
  5 <> 0
  /\ exists b c k e1 e2,
       proctrack_p_has_pid plat true 5 100 (start 5 0 false [ok 5])
       = Some (b, with_kern k (start 5 0 false [ok 5]), e1)
       /\ proctrack_p_find plat true 100 (start 5 0 false [ok 5])
          = Some (c, with_kern k (start 5 0 false [ok 5]), e2)
       /\ calls is_getjid e1 = 1%nat
       /\ calls is_getjid e2 = 1%nat
       /\ (b = true <-> c = 5).
Proof.
  split; [discriminate |].
  apply (find_agrees_with_has_pid plat 5 100 (start 5 0 false [ok 5])).
  discriminate.
Defined.


(** X5 at work: a forked step, [job_create] answers 9. *)
Lemma create_forked_is_direct_run :
  let s := start 0 7 true [ok 9] in
  cont_id (step s) = 0
  /\ proctrack_forked s = true
  /\ exists s' evs,
       proctrack_p_create plat true s = Some (SLURM_SUCCESS, s', evs)
       /\ cont_id (step s') = to_uint64 9
       /\ threadid s' = threadid s
       /\ forallb quiet evs = true
       /\ calls (fun e => match e with Job_create _ => true | _ => false end) evs
          = 1%nat.
Proof.
  intros s. split; [reflexivity |]. split; [reflexivity |].
  apply (create_forked_is_direct plat s); reflexivity.
Defined.


(** X7 at work: [job_create] fails in the worker. *)
Lemma create_failure_is_kept_run :
  let s := start 0 0 false [ok 77; ok jid_fail] in
  cont_id (step s) = 0
  /\ proctrack_forked s = false
  /\ threadid s = 0
  /\ to_uint64 jid_fail = jid_fail
  /\ exists s1 e1 e2,
       proctrack_p_create plat true s = Some (SLURM_SUCCESS, s1, e1)
       /\ cont_id (step s1) = jid_fail
       /\ threadid s1 = 77
       /\ In (In_worker (Log Error "Failed to create job container: %m" [])) e1
       /\ ~ In (In_worker Cond_wait) e1
       /\ proctrack_p_create plat true s1 = Some (SLURM_SUCCESS, s1, e2)
       /\ forallb is_log e2 = true.
Proof.
  intros s. split; [reflexivity |]. split; [reflexivity |].
  split; [reflexivity |]. split; [reflexivity |].
  apply (create_failure_is_kept plat s); reflexivity.
Defined.

(** X8 at work: a forked step with worker 7 outstanding. *)
Lemma add_forked_skips_attach_run :
  let s := start 5 7 true [ok 0; ok 3; ok 1; ok 0] in
  proctrack_forked s = true
  /\ exists r s' evs,
       add 1%nat true 100 s = Some (r, s', evs)
       /\ calls is_attach evs = 0%nat
       /\ calls is_detach evs = 0%nat
       /\ calls is_getjid evs = 0%nat
       /\ threadid s' = 0.
Proof.
  intros s. split; [reflexivity |].
  do 3 eexists. split; [reflexivity |].
  eapply (add_forked_skips_attach plat no_val id_hash 1 100 s);
    reflexivity.
Defined.

(** X9 at work: the write fails, the descriptor is closed all the same. *)
Lemma add_closes_what_it_writes_run :
  let s := start 5 0 false [ok 0; ok 0; ok 3; ok 0; ok 0] in
  exists s' evs,
    add 1%nat true 100 s = Some (SLURM_ERROR, s', evs)
    /\ In (Write_one 3) evs
    /\ In (Close 3) evs.
Proof.
  intros s. do 2 eexists. split; [reflexivity |].
  assert (Hw : In (Write_one 3)
                 [Job_attachpid 100 5; Job_setapid 100 42; Open_task_is_app 100;
                  Write_one 3;
                  Log Error "Failed to write to %s: %m" [AFname 100]; Close 3])
    by (cbn; tauto).
  split; [exact Hw |].
  exact (add_closes_what_it_writes plat no_val id_hash 1 100 s _ _ _ eq_refl 3 Hw).
Defined.

(** X10 at work: an attach at the first try; the step has no heterogeneous
    job id, job id 42 and step id 0. *)
Lemma add_success_has_stamped_run :
  let s := start 5 7 false [ok 0; ok 0; ok 3; ok 1; ok 0] in
  exists s' evs,
    add 1%nat true 100 s = Some (SLURM_SUCCESS, s', evs)
    /\ already_member plat 100 s = false
    /\ In (Job_setapid 100 (id_hash 42 0)) evs
    /\ In (Open_task_is_app 100) evs
    /\ exists fd, In (Write_one fd) evs /\ In (Close fd) evs.
Proof.
  intros s. do 2 eexists. split; [reflexivity |]. split; [reflexivity |].
  destruct (add_success_has_stamped plat no_val id_hash 1 100 s _ _
              eq_refl eq_refl) as (H0 & _ & Ho & Hw).
  split; [apply H0; left; reflexivity |]. split; [exact Ho | exact Hw].
Defined.

(** X11 at work: the attach succeeds and [job_setapid] fails, with worker
    7 outstanding. *)
Lemma add_setapid_failure_keeps_attachment_run :
  let s := start 5 7 false [ok 0; fails (-1) EINVAL] in
  (1 <= 1)%nat
  /\ proctrack_forked s = false
  /\ fst (job_attachpid plat 100 5 (kern s)) <> jid_fail
  /\ fst (job_setapid plat 100 (apid_of no_val id_hash (step s))
            (snd (job_attachpid plat 100 5 (kern s)))) = -1
  /\ add 1%nat true 100 s
     = Some (SLURM_ERROR,
             with_threadid 0 (with_kern (mk_kernel [] EINVAL) s),
             Job_attachpid 100 5 :: retirement 7
             ++ [Job_setapid 100 (apid_of no_val id_hash (step s));
                 Log Error "Failed to set pid %d apid: %m" [AInt 100]]).
Proof.
  intros s.
  assert (Ha : fst (job_attachpid plat 100 5 (kern s)) <> jid_fail)
    by discriminate.
  split; [lia |]. split; [reflexivity |]. split; [exact Ha |].
  split; [reflexivity |].
  exact (add_setapid_failure_keeps_attachment plat no_val id_hash
           1 100 s (le_n 1) eq_refl Ha eq_refl).
Defined.

(** X12 at work: [close] is interrupted once and then succeeds. *)
Lemma close_retries_only_on_eintr_run :
  let s := start 5 0 false [fails (-1) EINTR; ok 0] in
  temp_failure_retry_close plat 2 3 s
  = Some (0, with_kern (mk_kernel [] EINTR) s, [Close 3; Close 3])
  /\ (0 = -1 -> EINTR <> EINTR)
  /\ with_kern (mk_kernel [] EINTR) s
     = with_kern (mk_kernel [] EINTR) s
  /\ exists n, (n < 2)%nat /\ [Close 3; Close 3] = repeat (Close 3) (S n).
Proof.
  intros s. split; [reflexivity |].
  exact (close_retries_only_on_eintr plat 2 3 s _ _ _ eq_refl).
Defined.

(** Three more units of fuel. *)
Lemma add_fuel_monotone_run :
  let s := start 5 7 false [ok 0; ok 0; ok 3; ok 1; ok 0] in
  exists x, add 1%nat true 100 s = Some x /\ add 4%nat true 100 s = Some x.
Proof.
  intros s. eexists. split; [reflexivity |].
  exact (add_fuel_monotone plat no_val id_hash 1 3 true 100 s _ eq_refl).
Defined.

(** X13 at work: a [close] that always succeeds. *)
Lemma add_returns_when_close_is_not_interrupted_run :
  let s := start 5 0 false [fails jid_fail EINVAL; ok 6; ok 6; ok 0] in
  (forall fd k, fst (close plat_closing fd k) = -1 ->
                errno plat_closing (snd (close plat_closing fd k)) <> EINTR)
  /\ (2 <= 2)%nat
  /\ exists r s' evs,
       proctrack_p_add plat_closing no_val id_hash 2 true 100 s
       = Some (r, s', evs)
       /\ (calls is_attach evs <= 2)%nat
       /\ (calls is_detach evs <= 1)%nat
       /\ (calls is_getjid evs <= 1)%nat.
Proof.
  intros s.
  assert (Hc : forall fd k, fst (close plat_closing fd k) = -1 ->
                 errno plat_closing (snd (close plat_closing fd k)) <> EINTR)
    by (intros fd k H; discriminate H).
  split; [exact Hc |]. split; [lia |].
  exact (add_returns_when_close_is_not_interrupted plat_closing no_val id_hash
           2 100 s Hc (le_n 2)).
Defined.

(** X14 at work: a signal that retires worker 7 leaves the step alone. *)
Lemma step_written_only_by_create_run :
  let s := start 5 7 false [] in
  proctrack_p_signal plat true 5 SIGKILL s
  = Some (SLURM_SUCCESS, with_threadid 0 s, retirement 7)
  /\ step (with_threadid 0 s) = step s.
Proof.
  intros s. split; [reflexivity |].
  exact (proj1 (proj2 (step_written_only_by_create plat no_val id_hash
                         1 true 5 SIGKILL 100 (None, 0)))
           s _ _ _ eq_refl).
Defined.

(** X15 at work: the same signal clears the handle. *)
Lemma handle_cleared_only_by_retirement_run :
  let s := start 5 7 false [] in
  proctrack_p_signal plat true 5 SIGKILL s
  = Some (SLURM_SUCCESS, with_threadid 0 s, retirement 7)
  /\ (threadid (with_threadid 0 s) = threadid s
      \/ threadid (with_threadid 0 s) = 0).
Proof.
  intros s. split; [reflexivity |].
  destruct (handle_cleared_only_by_retirement plat no_val id_hash
              1 true 5 SIGKILL 100 (None, 0)) as (_ & _ & _ & _ & _ & _ & H).
  exact (H s _ _ _ eq_refl).
Defined.

(** X16 at work: worker 7 outstanding, [job_waitjid] answers 0. *)
Lemma signal_kill_then_wait_run :
  let s := start 5 7 false [ok 0] in
  threadid s <> 0
  /\ exists r,
       (proctrack_p_signal plat true 5 SIGKILL ;; proctrack_p_wait plat true 5) s
       = Some (r, with_threadid 0 (with_kern (mk_kernel [] 0) s),
               retirement 7 ++ timing false ++ [Job_waitjid 5])
       /\ (r = SLURM_ERROR <-> 0 = jid_fail).
Proof.
  intros s. split; [discriminate |].
  apply (signal_kill_then_wait plat 5 s). discriminate.
Defined.

(** X17 at work: worker 7 outstanding. *)
Lemma destroy_waits_only_without_worker_run :
  let s := start 5 7 false [fails jid_fail EINVAL] in
  threadid s <> 0
  /\ exists evs,
       proctrack_p_destroy plat true 5 s = Some (SLURM_SUCCESS, s, evs)
       /\ forallb is_log evs = true.
Proof.
  intros s. split; [discriminate |].
  apply (destroy_waits_only_without_worker plat 5 s). discriminate.
Defined.

(** X18 at work: the list call fails with an [errno] other than
    [ENODATA]. *)
Lemma get_pids_buffer_is_owned_run :
  let s := start 5 0 false [ok 2; fails (-1) EINVAL] in
  exists s' evs,
    proctrack_p_get_pids plat true 5 (Some [1], 1) s
    = Some ((SLURM_ERROR, (None, 0)), s', evs)
    /\ (calls is_xmalloc evs = calls is_xfree evs + 0)%nat
    /\ (calls is_xmalloc evs <= 1)%nat
    /\ ((None : option (list Z)) = None -> 0 = 0)
    /\ (SLURM_ERROR = SLURM_ERROR -> (None : option (list Z)) = None /\ 0 = 0).
Proof.
  intros s. do 2 eexists. split; [reflexivity |].
  exact (get_pids_buffer_is_owned plat 5 (Some [1], 1) s _ _ _ _ _ eq_refl).
Defined.

(** X19 at work: a creation on a fresh step. *)
Lemma entry_points_keep_lock_discipline_run :
  let s := start 0 0 false [ok 77; ok 9] in
  exists s' evs,
    proctrack_p_create plat true s = Some (SLURM_SUCCESS, s', evs)
    /\ disciplined evs.
Proof.
  intros s. do 2 eexists. split; [reflexivity |].
  eapply (entry_points_keep_lock_discipline plat no_val id_hash
            1 true 5 9 100 s).
  left. reflexivity.
Defined.

(** X21 at work: the first thread gets handle 1. *)
Lemma rl_init_twice_run :
  RL.rl_thread (RL.mk_sched 0 0) = 0
  /\ fst (RL.pthread_create RL.counting 0) <> 0
  /\ let '(r1, w1, e1) := RL.init RL.counting (RL.mk_sched 0 0) in
     let '(r2, w2, e2) := RL.init RL.counting w1 in
     r1 = SLURM_SUCCESS /\ r2 = SLURM_ERROR /\ w2 = w1
     /\ List.length (filter RL.is_create (e1 ++ e2)) = 1%nat.
Proof.
  assert (Ht : fst (RL.pthread_create RL.counting 0) <> 0) by discriminate.
  split; [reflexivity |]. split; [exact Ht |].
  exact (rl_init_twice RL.counting (RL.mk_sched 0 0) eq_refl Ht).
Defined.

(** X22 at work: thread 1 is running. *)
Lemma rl_fini_then_init_run :
  RL.rl_thread (RL.mk_sched 1 1) <> 0
  /\ exists l,
       snd (RL.fini RL.counting (RL.mk_sched 1 1))
       = RL.Mutex_lock :: l
         :: [RL.Stop_rl_agent; RL.Pthread_join 1; RL.Mutex_unlock].
Proof.
  assert (Ht : RL.rl_thread (RL.mk_sched 1 1) <> 0) by discriminate.
  split; [exact Ht |].
  exact (proj1 (proj2 (rl_fini_then_init RL.counting (RL.mk_sched 1 1))) Ht).
Defined.

End MoreRuns.

(** ** Two claims as worded, on the scripted platform *)

Section Worded.

Import Mock.

(** C4 as stated fails.  [SIGTERM] is a termination signal, yet with worker
    7 outstanding [proctrack_p_signal] treats it as misuse: it logs the
    error line and returns [SLURM_SUCCESS] with the state as it was, the
    handle still 7, and neither signal nor join in the run. *)
Lemma signal_sigterm_keeps_worker :
  let s := start 5 7 false [] in
  threadid s <> 0
  /\ SIGTERM <> SIGKILL
  /\ exists evs,
       proctrack_p_signal plat true 5 SIGTERM s = Some (SLURM_SUCCESS, s, evs)
       /\ threadid s = 7
       /\ calls is_retire evs = 0%nat
       /\ In (Log Error
                "Trying to send signal %d a container 0x%08lx that hasn't had anything added to it yet"
                [AInt SIGTERM; AInt 5]) evs.
Proof.
  intros s. split; [discriminate |]. split; [discriminate |].
  eexists. split; [reflexivity |]. split; [reflexivity |].
  split; [reflexivity |]. left. reflexivity.
Qed.

(** C7 as stated fails.  The count is 2, so the buffer stands for 130 pids,
    and [job_getpidlist] answers 1000: [proctrack_p_get_pids] returns
    [SLURM_SUCCESS] and hands out the count 1000 as it came. *)
Lemma get_pids_hands_out_unchecked_count :
  let s := start 5 0 false [ok 2; mk_reply 1000 None [10; 11]] in
  fst (job_getpidcnt plat 5 (kern s)) = 2
  /\ exists s' evs,
       proctrack_p_get_pids plat true 5 (None, 0) s
       = Some ((SLURM_SUCCESS, (Some [10; 11], 1000)), s', evs)
       /\ ~ (1000 <= 2 + 128).
Proof.
  intros s. split; [reflexivity |].
  do 2 eexists. split; [reflexivity |]. lia.
Qed.

End Worded.
